(** * rltk: records and hash blocking

    A shallow embedding of [rltk/record.py] and
    [rltk/blocking/hash_block_generator.py], with the properties of the
    blocking engine stated and proved over it.

    Python objects are mutable; the embedding threads the mutated object
    through a small state-and-exception monad.  Dictionaries are stdpp's
    [gmap], sets are [gset]. *)

From Stdlib Require Import ZArith Ascii String Lia.
From stdpp Require Import base option list strings gmap fin_maps fin_sets countable.

Local Open Scope string_scope.

(** ** Python values *)

(** The values that record attributes, raw objects and blocking keys range
    over.  [bool] is a subclass of [int] in Python ([True == 1]), so [True]
    and [False] are the integers 1 and 0.  A raw object may be a mapping from
    attribute names to scalars.  Strings are sequences of 8-bit characters. *)
Inductive Scalar : Type :=
  | SStr (s : string)
  | SInt (z : Z)
  | SNone.

Inductive PyVal : Type :=
  | PScalar (a : Scalar)
  | PDict (d : gmap string Scalar).

Abbreviation PStr s := (PScalar (SStr s)).
Abbreviation PInt z := (PScalar (SInt z)).
Abbreviation PNone := (PScalar SNone).
Abbreviation PTrue := (PScalar (SInt 1)).
Abbreviation PFalse := (PScalar (SInt 0)).

#[global] Instance Scalar_eq_dec : EqDecision Scalar.
Proof. solve_decision. Defined.

#[global] Instance PyVal_eq_dec : EqDecision PyVal.
Proof. solve_decision. Defined.

Definition Scalar_to_sum (a : Scalar) : string + (Z + unit) :=
  match a with
  | SStr s => inl s
  | SInt z => inr (inl z)
  | SNone => inr (inr tt)
  end.

Definition Scalar_of_sum (x : string + (Z + unit)) : Scalar :=
  match x with
  | inl s => SStr s
  | inr (inl z) => SInt z
  | inr (inr _) => SNone
  end.

#[global] Instance Scalar_countable : Countable Scalar.
Proof.
  refine (inj_countable' Scalar_to_sum Scalar_of_sum _).
  intros a. destruct a; reflexivity.
Defined.

Definition PyVal_to_sum (v : PyVal) : Scalar + gmap string Scalar :=
  match v with
  | PScalar a => inl a
  | PDict d => inr d
  end.

Definition PyVal_of_sum (x : Scalar + gmap string Scalar) : PyVal :=
  match x with
  | inl a => PScalar a
  | inr d => PDict d
  end.

#[global] Instance PyVal_countable : Countable PyVal.
Proof.
  refine (inj_countable' PyVal_to_sum PyVal_of_sum _).
  intros v. destruct v; reflexivity.
Defined.

(** [isinstance(v, str)] *)
Definition is_str (v : PyVal) : bool :=
  match v with
  | PStr _ => true
  | _ => false
  end.

(** Truth value of an object in a condition ([if v:]). *)
Definition truthy (v : PyVal) : bool :=
  match v with
  | PStr s => negb (String.eqb s "")
  | PInt z => negb (Z.eqb z 0)
  | PNone => false
  | PDict d => negb (bool_decide (d = ∅))
  end.

(** [v1 == v2] on values. *)
Definition py_eqb (v1 v2 : PyVal) : bool := bool_decide (v1 = v2).

(** ** Exceptions and the state-and-exception monad *)

Inductive ExcClass : Type :=
  | TypeError
  | ValueError
  | NotImplementedError
  | KeyError
  | AttributeError
  | ConfigurationError.

#[global] Instance ExcClass_eq_dec : EqDecision ExcClass.
Proof. solve_decision. Defined.

Record Exn : Type := MkExn { exc_class : ExcClass; exc_msg : string }.

#[global] Instance Exn_eq_dec : EqDecision Exn.
Proof. solve_decision. Defined.

(** The outcome of a call: a raised exception or a returned value. *)
Inductive result (A : Type) : Type :=
  | Raise (e : Exn)
  | Ok (a : A).
Arguments Raise {A} e.
Arguments Ok {A} a.

#[global] Instance result_eq_dec {A} `{EqDecision A} : EqDecision (result A).
Proof. solve_decision. Defined.

Definition result_bind {A B} (r : result A) (k : A → result B) : result B :=
  match r with
  | Raise e => Raise e
  | Ok a => k a
  end.

(** A computation over a mutable store [S]: the store survives a raise. *)
Definition M (S A : Type) : Type := S → S * result A.

Definition ret {S A} (a : A) : M S A := λ s, (s, Ok a).
Definition raise {S A} (e : Exn) : M S A := λ s, (s, Raise e).
Definition bind {S A B} (m : M S A) (k : A → M S B) : M S B :=
  λ s, match m s with
       | (s', Ok a) => k a s'
       | (s', Raise e) => (s', Raise e)
       end.
Definition get_store {S} : M S S := λ s, (s, Ok s).
Definition modify {S} (f : S → S) : M S unit := λ s, (f s, Ok tt).
Definition lift_result {S A} (r : result A) : M S A := λ s, (s, r).

Declare Scope py_scope.
Delimit Scope py_scope with py.
Notation "'let!' x ':=' m 'in' k" := (bind m (λ x, k))
  (at level 10, x name, m at level 100, k at level 200) : py_scope.
Notation "'exec!' m 'in' k" := (bind m (λ _, k))
  (at level 10, m at level 100, k at level 200) : py_scope.
Local Open Scope py_scope.

(** [for x in xs: body(x)] *)
Fixpoint for_each {S A} (xs : list A) (body : A → M S unit) : M S unit :=
  match xs with
  | [] => ret tt
  | x :: xs' => exec! body x in for_each xs' body
  end.

(** ** [record.py] *)

(** *** The id pattern

    [re_record_id = re.compile(r'^[^*]{1,255}$')], used through [match].
    [match] anchors at the start of the string.  Without [re.MULTILINE], [$]
    matches at the end of the string and also just before a newline that is
    the last character of the string. *)

Definition newline : ascii := ascii_of_nat 10.
Definition star : ascii := ascii_of_nat 42.

(** [$] at the position where [rest] is what remains of the subject. *)
Definition at_dollar (rest : string) : bool :=
  match rest with
  | EmptyString => true
  | String c EmptyString => bool_decide (c = newline)
  | _ => false
  end.

(** [[^*]{lo,hi}$] from the current position: the repetition is greedy, takes
    one more character when it can and falls back to stopping here when the
    remainder of the pattern fails after it. *)
Fixpoint match_not_star_rep (lo hi : nat) (s : string) : bool :=
  let stop_here := Nat.eqb lo 0 && at_dollar s in
  match hi, s with
  | S hi', String c s' =>
      if bool_decide (c = star) then stop_here
      else match_not_star_rep (pred lo) hi' s' || stop_here
  | _, _ => stop_here
  end.

(** [re_record_id.match(s)] is not [None]. *)
Definition re_record_id_match (s : string) : bool :=
  match_not_star_rep 1 255 s.

(** The string contains the reserved character ['*']. *)
Fixpoint has_star (s : string) : bool :=
  match s with
  | EmptyString => false
  | String c s' => bool_decide (c = star) || has_star s'
  end.

(** The last character of the string is a newline. *)
Fixpoint ends_with_newline (s : string) : bool :=
  match s with
  | EmptyString => false
  | String c EmptyString => bool_decide (c = newline)
  | String _ s' => ends_with_newline s'
  end.

(** *** Classes and instances *)

(** A decorated method receives the instance; the embedding passes it the
    instance's [__dict__] (which holds [raw_object] and every stored
    attribute). *)
Abbreviation InstDict := (gmap string PyVal).
Definition Method : Type := gmap string PyVal → result PyVal.

(** An entry of a class's [__dict__]: a [property], a [cached_property]
    wrapping a function whose [__name__] is [fname], or a plain value. *)
Inductive ClassAttr : Type :=
  | Property (func : Method)
  | CachedProperty (fname : string) (func : Method)
  | Value (v : PyVal).

Definition ClassDict : Type := list (string * ClassAttr).

(** The classes of records: [Record] itself and its (single-inheritance)
    descendants, each with its own [__dict__].  A class object has an
    identity, [tag], which is what [is], [isinstance] and [issubclass]
    compare: every executed class statement creates a class with a tag of
    its own, whatever its name and its body.  The [__name__] and the
    [__dict__] of a class are attributes that can change while its identity
    stays (the decorator [remove_raw_object] changes the [__dict__] of the
    class it is given and returns that same class). *)
Inductive Class : Type :=
  | RecordClass
  | Subclass (tag : nat) (name : string) (own : ClassDict) (parent : Class).

(** [Record.id] raises [NotImplementedError]; [Record.remove_raw_object] is
    [False]. *)
Definition Record_dict : ClassDict :=
  [ ("remove_raw_object", Value PFalse);
    ("id", Property (λ _, Raise (MkExn NotImplementedError ""))) ].

(** [cls.__name__] *)
Definition class_name (c : Class) : string :=
  match c with
  | RecordClass => "Record"
  | Subclass _ n _ _ => n
  end.

(** [cls.__dict__] *)
Definition class_dict (c : Class) : ClassDict :=
  match c with
  | RecordClass => Record_dict
  | Subclass _ _ own _ => own
  end.


(** [cls.__mro__] as identities: the tag of the class and the tags of its
    ancestors; [Record], the root of every chain, adds none. *)
Fixpoint class_mro (c : Class) : list nat :=
  match c with
  | RecordClass => []
  | Subclass tag _ _ p => tag :: class_mro p
  end.

(** [c is d]: the same class object, that is the same identity with the
    same bases.  Names and [__dict__]s are not compared. *)
Inductive same_class : Class → Class → Prop :=
  | same_class_Record : same_class RecordClass RecordClass
  | same_class_Subclass tag n1 own1 p1 n2 own2 p2 :
      same_class p1 p2 →
      same_class (Subclass tag n1 own1 p1) (Subclass tag n2 own2 p2).

Fixpoint dict_lookup {A} (name : string) (d : list (string * A)) : option A :=
  match d with
  | [] => None
  | (n, a) :: d' => if String.eqb n name then Some a else dict_lookup name d'
  end.

(** Attribute lookup on the class along the method resolution order. *)
Fixpoint class_lookup (c : Class) (name : string) : option ClassAttr :=
  match dict_lookup name (class_dict c) with
  | Some a => Some a
  | None =>
      match c with
      | RecordClass => None
      | Subclass _ _ _ p => class_lookup p name
      end
  end.

(** [issubclass(c, d)]: [d] is [c] or one of the ancestors of [c], by
    identity. *)
Fixpoint issubclass (c d : Class) : bool :=
  bool_decide (class_mro c = class_mro d) ||
  match c with
  | RecordClass => false
  | Subclass _ _ _ p => issubclass p d
  end.

(** A record instance: its class and its [__dict__]. *)
Record Obj : Type := MkObj { obj_class : Class; obj_dict : InstDict }.

(** [isinstance(o, c)] *)
Definition isinstance (o : Obj) (c : Class) : bool := issubclass (obj_class o) c.

(** [Record.__init__(self, raw_object)] *)
Definition Record_init (c : Class) (raw_object : PyVal) : Obj :=
  MkObj c {[ "raw_object" := raw_object ]}.

(** The mutable part of an instance while code runs on it: its [__dict__],
    and the log of the decorated functions that were invoked on it (by
    [__name__] for a [cached_property], by attribute name for a
    [property]). *)
Record World : Type := MkWorld { w_dict : InstDict; w_calls : list string }.

Definition call (name : string) (func : Method) : M World PyVal :=
  λ w, (MkWorld (w_dict w) (w_calls w ++ [name]), func (w_dict w)).

Definition store_attr (name : string) (v : PyVal) : M World unit :=
  modify (λ w, MkWorld (<[name := v]> (w_dict w)) (w_calls w)).

(** [cached_property.__get__(self, obj, cls)] for [obj] not [None]. *)
Definition cached_property_get (fname : string) (func : Method) : M World PyVal :=
  let! w := get_store in
  exec! (match w_dict w !! fname with
         | None => let! v := call fname func in store_attr fname v
         | Some _ => ret tt
         end) in
  let! w' := get_store in
  ret (default PNone (w_dict w' !! fname)).

(** [getattr(obj, name)]: a [property] or [cached_property] found on the
    class is a data descriptor and wins over the instance's [__dict__]; a
    plain class value is used only when the instance has no entry. *)
Definition getattr (c : Class) (name : string) : M World PyVal :=
  match class_lookup c name with
  | Some (Property func) => call name func
  | Some (CachedProperty fname func) => cached_property_get fname func
  | Some (Value v) =>
      let! w := get_store in ret (default v (w_dict w !! name))
  | None =>
      let! w := get_store in
      match w_dict w !! name with
      | Some v => ret v
      | None => raise (MkExn AttributeError name)
      end
  end.

(** The value (or exception) of reading [o.name]. *)
Definition attr_value (o : Obj) (name : string) : result PyVal :=
  snd (getattr (obj_class o) name (MkWorld (obj_dict o) [])).

(** [Record.__eq__(self, other)] *)
Definition Record_eq (self other : Obj) : result bool :=
  if negb (isinstance other (obj_class self)) then Ok false
  else
    result_bind (attr_value self "id") (λ a,
    result_bind (attr_value other "id") (λ b,
    Ok (py_eqb a b))).

(** The expression [r == s] on two records whose classes inherit
    [Record.__eq__]: when the type of [s] is a proper subclass of the type
    of [r], Python tries the reflected method [s.__eq__(r)] first, and
    [Record.__eq__] never returns [NotImplemented]. *)
Definition eq_op (r s : Obj) : result bool :=
  if negb (bool_decide (class_mro (obj_class r) = class_mro (obj_class s)))
     && issubclass (obj_class s) (obj_class r)
  then Record_eq s r
  else Record_eq r s.

(** [validate_record(obj)] *)
Definition validate_record (c : Class) : M World unit :=
  let! v := getattr c "id" in
  if negb (is_str v) then
    raise (MkExn TypeError
             ("Id in " ++ class_name c ++ " should be an utf-8 encoded string."))
  else
    let! v' := getattr c "id" in
    match v' with
    | PStr s =>
        if negb (re_record_id_match s) then raise (MkExn ValueError "Id is not valid")
        else ret tt
    | _ => raise (MkExn TypeError "expected string or bytes-like object")
    end.

(** [del obj.__dict__['raw_object']] *)
Definition del_raw_object : M World unit :=
  let! w := get_store in
  match w_dict w !! "raw_object" with
  | Some _ => modify (λ w, MkWorld (delete "raw_object" (w_dict w)) (w_calls w))
  | None => raise (MkExn KeyError "raw_object")
  end.

(** [obj.__class__.remove_raw_object]; a [property] object found under that
    name is read off the class as itself, and is true in a condition. *)
Definition class_remove_raw_object (c : Class) : result PyVal :=
  match class_lookup c "remove_raw_object" with
  | Some (Value v) => Ok v
  | Some _ => Ok PTrue
  | None => Raise (MkExn AttributeError "remove_raw_object")
  end.

(** The body of the loop of [generate_record_property_cache]:
    [if isinstance(prop_type, cached_property): getattr(obj, prop_name)] *)
Definition force_cached_property (c : Class) (item : string * ClassAttr) : M World unit :=
  let '(prop_name, prop_type) := item in
  match prop_type with
  | CachedProperty _ _ => exec! getattr c prop_name in ret tt
  | _ => ret tt
  end.

(** [generate_record_property_cache(obj)] *)
Definition generate_record_property_cache (c : Class) : M World unit :=
  exec! for_each (class_dict c) (force_cached_property c) in
  exec! validate_record c in
  let! flag := lift_result (class_remove_raw_object c) in
  if truthy flag then del_raw_object else ret tt.

(** [d[name] = a] on an insertion-ordered dictionary. *)
Fixpoint dict_set {A} (name : string) (a : A) (d : list (string * A)) : list (string * A) :=
  match d with
  | [] => [(name, a)]
  | (n, x) :: d' =>
      if String.eqb n name then (n, a) :: d' else (n, x) :: dict_set name a d'
  end.

(** The class decorator [remove_raw_object(cls)]: [cls.remove_raw_object =
    True].  It is applied to classes derived from [Record]; the dictionary of
    [Record] itself is fixed in this embedding. *)
Definition remove_raw_object (cls : Class) : Class :=
  match cls with
  | RecordClass => RecordClass
  | Subclass tag n own p =>
      Subclass tag n (dict_set "remove_raw_object" (Value PTrue) own) p
  end.

(** The method body [return self.raw_object[field]]. *)
Definition raw_field (field : string) : Method :=
  λ d, match d !! "raw_object" with
       | None => Raise (MkExn AttributeError "raw_object")
       | Some (PDict raw) =>
           match raw !! field with
           | Some a => Ok (PScalar a)
           | None => Raise (MkExn KeyError field)
           end
       | Some _ => Raise (MkExn TypeError "indices must be integers")
       end.

(** [AutoGeneratedRecord.id]: [self.raw_object['id']] *)
Definition AutoGeneratedRecord_id : Method := raw_field "id".

Definition AutoGeneratedRecord : Class :=
  remove_raw_object
    (Subclass 1 "AutoGeneratedRecord"
       [ ("id", CachedProperty "id" AutoGeneratedRecord_id) ]
       RecordClass).

(** [AutoGeneratedRecord.__init__(self, raw_object)]: after
    [self.raw_object = raw_object], every key of the mapping other than
    ['id'] is set as an attribute (a key named ['raw_object'] overwrites the
    reference to the raw object). *)
Definition AutoGeneratedRecord_init (raw_object : gmap string Scalar) : Obj :=
  MkObj AutoGeneratedRecord
    ((PScalar <$> delete "id" raw_object) ∪ {[ "raw_object" := PDict raw_object ]}).

(** [isinstance(prop_type, property)]; [cached_property] is a subclass of
    [property]. *)
Definition is_property (a : ClassAttr) : bool :=
  match a with
  | Property _ | CachedProperty _ _ => true
  | Value _ => false
  end.

(** [isinstance(prop_type, cached_property)] *)
Definition is_cached_property (a : ClassAttr) : bool :=
  match a with
  | CachedProperty _ _ => true
  | _ => false
  end.

(** [get_property_names(cls)]: the loop appends to [keys] the name of every
    entry of [cls.__dict__] that is a [property] or a [cached_property]. *)
Definition get_property_names (cls : Class) : list string :=
  foldl (λ (keys : list string) '(prop_name, prop_type),
           if negb (is_property prop_type) && negb (is_cached_property prop_type)
           then keys
           else (keys ++ [prop_name])%list)
        [] (class_dict cls).

(** No class of the chain of [c] stores a [cached_property] under the
    function name [k]. *)
Fixpoint no_cached_named (k : string) (c : Class) : Prop :=
  Forall (λ item, match item.2 with
                  | CachedProperty fname _ => fname ≠ k
                  | _ => True
                  end) (class_dict c)
  ∧ match c with
    | RecordClass => True
    | Subclass _ _ _ p => no_cached_named k p
    end.

(** ** Blocking *)

(** *** Block *)

(** Modelled from the spec: the class [Block] ([rltk/blocking/block.py]) is
    not part of the sources.  The spec describes it as a two-level
    association, key → dataset-id → set of record-ids, created empty, filled
    by [add], and iterated as a finite sequence of (key, dataset-id,
    record-id) triples that covers every inserted pair exactly once. *)
Abbreviation Block := (gmap string (gmap string (gset PyVal))).

(** A (key, dataset-id, record-id) triple. *)
Definition Triple : Type := string * string * PyVal.

(** Modelled from the spec: a [Block] is created empty. *)
Definition Block_new : Block := ∅.

(** The record-ids stored under [key] for dataset [ds]. *)
Definition Block_get (b : Block) (key ds : string) : gset PyVal :=
  default ∅ (default ∅ (b !! key) !! ds).

(** Modelled from the spec: [Block.add(key, dataset_id, record_id)] inserts
    the pair under [key]. *)
Definition Block_add (b : Block) (key ds : string) (rid : PyVal) : Block :=
  <[ key := <[ ds := {[ rid ]} ∪ Block_get b key ds ]> (default ∅ (b !! key)) ]> b.

(** Membership of a triple in a block. *)
Definition Block_mem (b : Block) (t : Triple) : Prop :=
  t.2 ∈ Block_get b t.1.1 t.1.2.

#[global] Instance Block_mem_dec b t : Decision (Block_mem b t).
Proof. unfold Block_mem. apply _. Defined.

(** Modelled from the spec: iteration over a [Block] yields its triples. *)
Definition Block_iter (b : Block) : list Triple :=
  kv ← map_to_list b;
  dv ← map_to_list kv.2;
  rid ← elements dv.2;
  [(kv.1, dv.1, rid)].

(** *** Block black-list *)

(** Modelled from the spec: the class [BlockBlackList]
    ([rltk/blocking/block_black_list.py]) is not part of the sources.  The
    spec gives it two operations, [has(key) -> bool] and [add(key, block)];
    [add] records that [key] was used to populate [block] and does not change
    the block.  A black-list object is always true in a condition. *)
Class BlockBlackList (BL : Type) : Type := {
  bl_has : BL → PyVal → bool;
  bl_add : BL → string → Block → BL
}.

(** Modelled from the spec: a black-list that counts the additions per key
    and excludes a key once its count exceeds the threshold. *)
Record CountingBlackList : Type := MkCBL {
  cbl_max_size : nat;
  cbl_count : gmap string nat
}.

#[global] Instance CountingBlackList_ops : BlockBlackList CountingBlackList := {
  bl_has bl v :=
    match v with
    | PStr k => Nat.ltb (cbl_max_size bl) (default 0 (cbl_count bl !! k))
    | _ => false
    end;
  bl_add bl k _ :=
    MkCBL (cbl_max_size bl) (<[ k := S (default 0 (cbl_count bl !! k)) ]> (cbl_count bl))
}.

(** *** Block generator *)

Definition KeyFunction : Type := Obj → result PyVal.

(** Modelled from the spec: [BlockGenerator._block_args_check]
    ([rltk/blocking/block_generator.py], not part of the sources).  Exactly
    one of the key function and the attribute name must be supplied; the
    output block defaults to a fresh empty [Block]. *)
Definition _block_args_check (function_ : option KeyFunction) (property_ : option string)
    (block : option Block) : result Block :=
  match function_, property_ with
  | Some _, None | None, Some _ => Ok (default Block_new block)
  | _, _ => Raise (MkExn ConfigurationError "Invalid function or property")
  end.

(** Modelled from the spec: [BlockGenerator._generate_args_check]; the
    output block defaults to a fresh empty [Block]. *)
Definition _generate_args_check (output_block : option Block) : Block :=
  default Block_new output_block.

(** A dataset: its identifier and the records it yields, in iteration
    order.  Reading an attribute of a record of a dataset is taken by its
    value ([attr_value]): the caching it may trigger on the record is not
    threaded through the blocking code. *)
Record Dataset : Type := MkDataset { ds_id : string; ds_records : list Obj }.

(** The objects [HashBlockGenerator.block] mutates: the output block and the
    black-list, when one is supplied. *)
Record BlockStore (BL : Type) : Type := MkStore {
  st_block : Block;
  st_black_list : option BL
}.
Arguments MkStore {BL} _ _.
Arguments st_block {BL} _.
Arguments st_black_list {BL} _.

Section HashBlockGenerator.
Context {BL : Type} `{!BlockBlackList BL}.

(** [function_(r) if function_ else getattr(r, property_)] *)
Definition extract_key (function_ : option KeyFunction) (property_ : option string)
    (r : Obj) : result PyVal :=
  match function_ with
  | Some f => f r
  | None =>
      match property_ with
      | Some p => attr_value r p
      | None => Raise (MkExn TypeError "attribute name must be string")
      end
  end.

(** [block_black_list and block_black_list.has(value)] *)
Definition excluded (bbl : option BL) (value : PyVal) : bool :=
  match bbl with
  | Some bl => bl_has bl value
  | None => false
  end.

(** The body of the loop of [HashBlockGenerator.block] for the record
    [r]. *)
Definition block_record (dataset_id : string) (function_ : option KeyFunction)
    (property_ : option string) (r : Obj) : M (BlockStore BL) unit :=
  let! value := lift_result (extract_key function_ property_ r) in
  let! st := get_store in
  if excluded (st_black_list st) value then ret tt
  else
    match value with
    | PStr key =>
        let! rid := lift_result (attr_value r "id") in
        exec! modify (λ st1, MkStore (Block_add (st_block st1) key dataset_id rid)
                                     (st_black_list st1)) in
        modify (λ st2, MkStore (st_block st2)
                         ((λ bl, bl_add bl key (st_block st2)) <$> st_black_list st2))
    | _ =>
        raise (MkExn ValueError "Return of the function or property should be a string")
    end.

(** [HashBlockGenerator.block(dataset, function_, property_, block,
    block_black_list)]: the final state of the block and the black-list,
    and the returned block or the raised exception. *)
Definition block (dataset : Dataset) (function_ : option KeyFunction)
    (property_ : option string) (block : option Block) (block_black_list : option BL)
    : BlockStore BL * result Block :=
  match _block_args_check function_ property_ block with
  | Raise e => (MkStore (default Block_new block) block_black_list, Raise e)
  | Ok b =>
      match for_each (ds_records dataset)
              (block_record (ds_id dataset) function_ property_)
              (MkStore b block_black_list) with
      | (st, Ok _) => (st, Ok (st_block st))
      | (st, Raise e) => (st, Raise e)
      end
  end.
End HashBlockGenerator.

(** The exception [block] raises for a key that is not a string. *)
Definition non_string_key_error : Exn :=
  MkExn ValueError "Return of the function or property should be a string".

(** [HashBlockGenerator.generate(block1, block2, output_block)]; a supplied
    [output_block] is an object distinct from [block1] and [block2]. *)
Definition generate (block1 block2 : Block) (output_block : option Block) : Block :=
  let output_block := _generate_args_check output_block in
  let output_block :=
    foldl (λ out '(block_id, ds_id, record_id), Block_add out block_id ds_id record_id)
          output_block (Block_iter block1) in
  foldl (λ out '(block_id, ds_id, record_id), Block_add out block_id ds_id record_id)
        output_block (Block_iter block2).

(** ** Example classes and data *)

(** [class RawIdRecord(Record)] with
    [@property def id(self): return self.raw_object]. *)
Definition RawIdRecord : Class :=
  Subclass 2 "RawIdRecord"
    [ ("id", Property (λ d, match d !! "raw_object" with
                            | Some v => Ok v
                            | None => Raise (MkExn AttributeError "raw_object")
                            end)) ]
    RecordClass.

(** [class PlainRecord(Record): pass] *)
Definition PlainRecord : Class := Subclass 3 "PlainRecord" [] RecordClass.

(** [class LambdaRecord(Record)] with
    [id = cached_property(lambda self: self.raw_object['id'])] and
    [name = cached_property(lambda self: self.raw_object['name'])]: both
    functions are named ['<lambda>']. *)
Definition LambdaRecord : Class :=
  Subclass 4 "LambdaRecord"
    [ ("id", CachedProperty "<lambda>" (raw_field "id"));
      ("name", CachedProperty "<lambda>" (raw_field "name")) ]
    RecordClass.

(** Two class statements with the same name and the same body,
    [class Person(Record)] with
    [@property def id(self): return self.raw_object], executed one after the
    other: two classes. *)
Definition Person_first : Class :=
  Subclass 8 "Person"
    [ ("id", Property (λ d, match d !! "raw_object" with
                            | Some v => Ok v
                            | None => Raise (MkExn AttributeError "raw_object")
                            end)) ]
    RecordClass.
Definition Person_second : Class :=
  Subclass 9 "Person"
    [ ("id", Property (λ d, match d !! "raw_object" with
                            | Some v => Ok v
                            | None => Raise (MkExn AttributeError "raw_object")
                            end)) ]
    RecordClass.

(** [class ChildRecord(RawIdRecord): pass] *)
Definition ChildRecord : Class := Subclass 5 "ChildRecord" [] RawIdRecord.

(** [class NamedRecord(Record)] with two cached properties, [id] and
    [name], read from the raw mapping. *)
Definition NamedRecord : Class :=
  Subclass 6 "NamedRecord"
    [ ("id", CachedProperty "id" (raw_field "id"));
      ("name", CachedProperty "name" (raw_field "name")) ]
    RecordClass.

(** [@remove_raw_object class SlimRecord(NamedRecord): pass] *)
Definition SlimRecord : Class :=
  remove_raw_object (Subclass 7 "SlimRecord" [] NamedRecord).

(** [AutoGeneratedRecord({'id': id, 'name': name})] *)
Definition person (id : string) (name : Scalar) : Obj :=
  AutoGeneratedRecord_init {[ "id" := SStr id; "name" := name ]}.

(** The datasets of the spec's example. *)
Definition dataset_A : Dataset :=
  MkDataset "A" [person "a1" (SStr "john"); person "a2" (SStr "mary")].
Definition dataset_B : Dataset :=
  MkDataset "B" [person "b1" (SStr "john")].

(** A black-list that excludes a fixed set of values, of any type, and
    never grows. *)
Record FixedBlackList : Type := MkFBL { fbl_excluded : gset PyVal }.

#[global] Instance FixedBlackList_ops : BlockBlackList FixedBlackList := {
  bl_has bl v := bool_decide (v ∈ fbl_excluded bl);
  bl_add bl _ _ := bl
}.

(** A black-list that counts what it is told and never excludes
    anything. *)
Record PermissiveBlackList : Type := MkPBL { pbl_told : nat }.

#[global] Instance PermissiveBlackList_ops : BlockBlackList PermissiveBlackList := {
  bl_has _ _ := false;
  bl_add bl _ _ := MkPBL (S (pbl_told bl))
}.

(** [lambda r: r.name] *)
Definition name_key : KeyFunction := λ r, attr_value r "name".

(** A dataset whose second record has the integer 5 as its [name]. *)
Definition dataset_int_key : Dataset :=
  MkDataset "A" ([person "a1" (SStr "john")]
                 ++ person "a2" (SInt 5) :: [person "a3" (SStr "mary")]).

(** A dataset whose second record has no [name]. *)
Definition dataset_no_name : Dataset :=
  MkDataset "A" ([person "a1" (SStr "john")]
                 ++ AutoGeneratedRecord_init {[ "id" := SStr "a2" ]}
                    :: [person "a3" (SStr "mary")]).

(** 255 times ['a'], then a newline: 256 characters. *)
Definition long_newline_id : string :=
  string_of_list_ascii (replicate 255 (ascii_of_nat 97) ++ [newline]).

(** The blocks of the spec's example: each dataset blocked on [name]. *)
Definition block_A : Block :=
  st_block (block dataset_A None (Some "name") None (None : option CountingBlackList)).1.
Definition block_B : Block :=
  st_block (block dataset_B None (Some "name") None (None : option CountingBlackList)).1.

(** * Properties *)

(** ** The monad *)

Lemma for_each_app {S A} (xs ys : list A) (body : A → M S unit) (s : S) :
  for_each (xs ++ ys) body s =
  match for_each xs body s with
  | (s', Ok _) => for_each ys body s'
  | (s', Raise e) => (s', Raise e)
  end.
Proof.
  revert s. induction xs as [|x xs IH]; intros s; simpl; [done|].
  unfold bind. destruct (body x s) as [s1 [e|[]]]; [done|]. apply IH.
Qed.

Lemma for_each_cons {S A} (x : A) (xs : list A) (body : A → M S unit) (s : S) :
  for_each (x :: xs) body s =
  match body x s with
  | (s', Ok _) => for_each xs body s'
  | (s', Raise e) => (s', Raise e)
  end.
Proof. simpl. unfold bind. by destruct (body x s) as [s1 [e|[]]]. Qed.

(** ** Blocks *)

Lemma Block_get_add (b : Block) key ds rid key' ds' :
  Block_get (Block_add b key ds rid) key' ds' =
  if decide (key = key' ∧ ds = ds') then {[ rid ]} ∪ Block_get b key ds
  else Block_get b key' ds'.
Proof.
  unfold Block_add, Block_get.
  destruct (decide (key = key')) as [<-|Hk].
  - rewrite lookup_insert_eq. simpl.
    destruct (decide (ds = ds')) as [<-|Hd].
    + rewrite lookup_insert_eq. simpl. by rewrite decide_True.
    + rewrite lookup_insert_ne by done. rewrite decide_False; [done|]. by intros [_ ?].
  - rewrite lookup_insert_ne by done. rewrite decide_False; [done|]. by intros [? _].
Qed.

Lemma Block_mem_add (b : Block) key ds rid (t : Triple) :
  Block_mem (Block_add b key ds rid) t ↔ t = (key, ds, rid) ∨ Block_mem b t.
Proof.
  destruct t as [[k d] r]. unfold Block_mem. simpl. rewrite Block_get_add.
  case_decide as H.
  - destruct H as [<- <-]. rewrite elem_of_union, elem_of_singleton.
    split; (intros [?|?]; [left; congruence|by right]).
  - split; [by right|]. intros [?|?]; [|done]. destruct H. by simplify_eq.
Qed.

Lemma Block_mem_new (t : Triple) : ¬ Block_mem Block_new t.
Proof.
  unfold Block_mem, Block_get, Block_new. rewrite lookup_empty. simpl.
  rewrite lookup_empty. simpl. apply not_elem_of_empty.
Qed.

Lemma Block_add_idem (b : Block) key ds rid :
  Block_add (Block_add b key ds rid) key ds rid = Block_add b key ds rid.
Proof.
  unfold Block_add at 1. rewrite Block_get_add, decide_True by done.
  assert ({[rid]} ∪ ({[rid]} ∪ Block_get b key ds) = {[rid]} ∪ Block_get b key ds) as ->
    by (by rewrite (assoc_L (∪)), union_idemp_L).
  unfold Block_add. rewrite lookup_insert_eq. simpl.
  by rewrite !insert_insert_eq.
Qed.

Lemma elem_of_Block_iter (b : Block) (t : Triple) :
  t ∈ Block_iter b ↔ Block_mem b t.
Proof.
  destruct t as [[k d] r]. unfold Block_iter, Block_mem, Block_get. simpl.
  rewrite list_elem_of_bind. split.
  - intros ([k' kv] & Hin & Hkv). apply elem_of_map_to_list in Hkv.
    simpl in Hin. apply list_elem_of_bind in Hin as ([d' ids] & Hin & Hdv).
    apply elem_of_map_to_list in Hdv. simpl in Hin.
    apply list_elem_of_bind in Hin as (r' & Hin & Hr).
    apply list_elem_of_singleton in Hin. simplify_eq.
    rewrite Hkv. simpl. rewrite Hdv. simpl. by apply elem_of_elements in Hr.
  - intros Hr.
    destruct (b !! k) as [kv|] eqn:Hkv; simpl in Hr;
      [|rewrite lookup_empty in Hr; simpl in Hr; by apply not_elem_of_empty in Hr].
    destruct (kv !! d) as [ids|] eqn:Hdv; simpl in Hr;
      [|by apply not_elem_of_empty in Hr].
    exists (k, kv). split; [|by apply elem_of_map_to_list].
    simpl. apply list_elem_of_bind. exists (d, ids).
    split; [|by apply elem_of_map_to_list].
    simpl. apply list_elem_of_bind. exists r.
    split; [by apply list_elem_of_singleton|by apply elem_of_elements].
Qed.

Lemma NoDup_Block_iter (b : Block) : NoDup (Block_iter b).
Proof.
  unfold Block_iter. apply NoDup_bind; [| |apply NoDup_map_to_list].
  - intros [k1 kv1] [k2 kv2] [[k d] r] H1 H2 Hy1 Hy2.
    apply elem_of_map_to_list in H1, H2. simpl in *.
    apply list_elem_of_bind in Hy1 as ([d1 i1] & Hy1 & _).
    apply list_elem_of_bind in Hy2 as ([d2 i2] & Hy2 & _).
    apply list_elem_of_bind in Hy1 as (r1 & Hy1 & _).
    apply list_elem_of_bind in Hy2 as (r2 & Hy2 & _).
    apply list_elem_of_singleton in Hy1, Hy2. simpl in *.
    congruence.
  - intros [k kv] _. simpl. apply NoDup_bind; [| |apply NoDup_map_to_list].
    + intros [d1 i1] [d2 i2] [[k' d] r] H1 H2 Hy1 Hy2.
      apply elem_of_map_to_list in H1, H2. simpl in *.
      apply list_elem_of_bind in Hy1 as (r1 & Hy1 & _).
      apply list_elem_of_bind in Hy2 as (r2 & Hy2 & _).
      apply list_elem_of_singleton in Hy1, Hy2. simpl in *.
      congruence.
    + intros [d ids] _. simpl. apply NoDup_bind; [| |apply NoDup_elements].
      * intros r1 r2 y _ _ Hy1 Hy2.
        apply list_elem_of_singleton in Hy1, Hy2. congruence.
      * intros r _. apply NoDup_singleton.
Qed.

Lemma Block_mem_foldl_add (l : list Triple) (out : Block) (t : Triple) :
  Block_mem
    (foldl (λ out '(block_id, ds_id, record_id), Block_add out block_id ds_id record_id)
       out l) t
  ↔ t ∈ l ∨ Block_mem out t.
Proof.
  revert out. induction l as [|[[k d] r] l IH]; intros out; simpl.
  - rewrite elem_of_nil. tauto.
  - rewrite IH, Block_mem_add, elem_of_cons. tauto.
Qed.

(** C7. Adding a triple that was just added leaves the block, its
    membership and its sequence of triples unchanged; the sequence never
    holds a triple twice. *)
Theorem Block_add_idempotent (b : Block) (key ds : string) (rid : PyVal) :
  let once := Block_add b key ds rid in
  let twice := Block_add once key ds rid in
  twice = once
  ∧ (∀ t, Block_mem twice t ↔ Block_mem once t)
  ∧ Block_mem once (key, ds, rid)
  ∧ Block_iter twice = Block_iter once
  ∧ NoDup (Block_iter twice).
Proof.
  simpl. rewrite Block_add_idem. split_and!; try done.
  - apply Block_mem_add. by left.
  - apply NoDup_Block_iter.
Qed.

(** C2. The block returned by [generate(block1, block2)] holds a triple
    exactly when [block1] or [block2] holds it. *)
Theorem generate_union (block1 block2 : Block) (t : Triple) :
  Block_mem (generate block1 block2 None) t ↔ Block_mem block1 t ∨ Block_mem block2 t.
Proof.
  unfold generate, _generate_args_check. simpl.
  rewrite !Block_mem_foldl_add, !elem_of_Block_iter.
  pose proof (Block_mem_new t). tauto.
Qed.

(** ** [HashBlockGenerator.block] *)

Lemma NoDup_fmap_eq {A B} (g : A → B) (l : list A) (x y : A) :
  NoDup (g <$> l) → x ∈ l → y ∈ l → g x = g y → x = y.
Proof.
  induction l as [|a l IH]; simpl; intros Hnd Hx Hy Hg; [by apply elem_of_nil in Hx|].
  pose proof (NoDup_cons_1_1 _ _ Hnd) as Ha. apply NoDup_cons_1_2 in Hnd.
  apply elem_of_cons in Hx as [->|Hx]; apply elem_of_cons in Hy as [->|Hy]; auto.
  - destruct Ha. rewrite Hg. by apply list_elem_of_fmap_2.
  - destruct Ha. rewrite <- Hg. by apply list_elem_of_fmap_2.
Qed.

Section BlockProperties.
Context {BL : Type} `{!BlockBlackList BL}.
Implicit Types (st : BlockStore BL) (r : Obj) (v : PyVal) (t : Triple).


Lemma block_record_add ds f p r st k i :
  extract_key f p r = Ok (PStr k) →
  excluded (st_black_list st) (PStr k) = false →
  attr_value r "id" = Ok i →
  block_record ds f p r st =
    (let b' := Block_add (st_block st) k ds i in
     MkStore b' ((λ bl, bl_add bl k b') <$> st_black_list st), Ok tt).
Proof.
  intros Hk Hex Hi. unfold block_record, bind, lift_result, get_store, modify.
  rewrite Hk. simpl. rewrite Hex, Hi. done.
Qed.

Lemma block_record_non_string ds f p r st v :
  extract_key f p r = Ok v →
  excluded (st_black_list st) v = false →
  is_str v = false →
  block_record ds f p r st = (st, Raise non_string_key_error).
Proof.
  intros Hk Hex Hs. unfold block_record, bind, lift_result, get_store.
  rewrite Hk. simpl. rewrite Hex. by destruct v as [[]|].
Qed.

(** Whatever happens at a record, the block keeps what it held. *)
Lemma block_record_mono ds f p r st st' res t :
  block_record ds f p r st = (st', res) →
  Block_mem (st_block st) t → Block_mem (st_block st') t.
Proof.
  unfold block_record, bind, lift_result, get_store, modify, ret, raise.
  destruct (extract_key f p r) as [e|v]; simpl; [by intros [= <- _]|].
  destruct (excluded (st_black_list st) v); [by intros [= <- _]|].
  destruct v as [[k|z|]|d]; try by intros [= <- _].
  destruct (attr_value r "id") as [e|i]; simpl; [by intros [= <- _]|].
  intros [= <- _] Ht. simpl. apply Block_mem_add. by right.
Qed.

Lemma block_loop_mono ds f p rs st st' res t :
  for_each rs (block_record ds f p) st = (st', res) →
  Block_mem (st_block st) t → Block_mem (st_block st') t.
Proof.
  revert st. induction rs as [|r rs IH]; intros st; [by intros [= <- _]|].
  rewrite for_each_cons.
  destruct (block_record ds f p r st) as [st1 [e|[]]] eqn:Hr; intros Hl Ht.
  - injection Hl as <- _. by eapply block_record_mono.
  - eapply IH; [done|]. by eapply block_record_mono.
Qed.

(** The loop without a black-list, on records whose keys are strings and
    whose ids can be read. *)
Lemma block_loop_no_black_list ds f p rs (b : Block) :
  (∀ r, r ∈ rs → ∃ k, extract_key f p r = Ok (PStr k)) →
  (∀ r, r ∈ rs → ∃ i, attr_value r "id" = Ok i) →
  ∃ b' : Block,
    for_each rs (block_record ds f p) (MkStore b (None : option BL))
      = (MkStore b' None, Ok tt)
    ∧ ∀ t, Block_mem b' t ↔
           Block_mem b t
           ∨ ∃ r, r ∈ rs ∧ extract_key f p r = Ok (PStr t.1.1)
                  ∧ t.1.2 = ds ∧ attr_value r "id" = Ok t.2.
Proof.
  revert b. induction rs as [|r rs IH]; intros b Hkeys Hids.
  - exists b. split; [done|]. intros t. split; [by left|].
    intros [?|(r & Hr & _)]; [done|]. by apply elem_of_nil in Hr.
  - destruct (Hkeys r) as [k Hk]; [by left|].
    destruct (Hids r) as [i Hi]; [by left|].
    destruct (IH (Block_add b k ds i)) as (b' & Hrun & Hmem).
    { intros r' Hr'. apply Hkeys. by right. }
    { intros r' Hr'. apply Hids. by right. }
    exists b'. split.
    + rewrite for_each_cons.
      rewrite (block_record_add ds f p r _ k i) by done. simpl. apply Hrun.
    + intros [[key d] rid]. rewrite Hmem, Block_mem_add. simpl. split.
      * intros [[[= -> -> ->]|?]|(r' & Hr' & ?)].
        -- right. exists r. split; [by left|done].
        -- by left.
        -- right. exists r'. split; [by right|done].
      * intros [?|(r' & Hr' & Hk' & Hd & Hi')]; [left; by right|].
        apply elem_of_cons in Hr' as [->|Hr'].
        -- left. left. congruence.
        -- right. by exists r'.
Qed.

(** C1. Without a black-list and with a key function that returns a
    string for every record, [block(D, f)] returns a block in which every
    record of [D] is held under the key [f(record)] as the pair (dataset
    id, record id), and which holds nothing but these entries; the records
    of a dataset having distinct ids, the pair of a record is held under no
    other key. *)
Theorem block_groups_every_record (D : Dataset) (f : KeyFunction) :
  (∀ r, r ∈ ds_records D → ∃ k, f r = Ok (PStr k)) →
  (∀ r, r ∈ ds_records D → ∃ i, attr_value r "id" = Ok i) →
  ∃ B : Block,
    block D (Some f) None None (None : option BL) = (MkStore B None, Ok B)
    ∧ (∀ r k i, r ∈ ds_records D → f r = Ok (PStr k) → attr_value r "id" = Ok i →
         Block_mem B (k, ds_id D, i))
    ∧ (∀ t, Block_mem B t →
         ∃ r, r ∈ ds_records D ∧ f r = Ok (PStr t.1.1)
              ∧ t.1.2 = ds_id D ∧ attr_value r "id" = Ok t.2)
    ∧ (NoDup ((λ r, attr_value r "id") <$> ds_records D) →
       ∀ r k i, r ∈ ds_records D → f r = Ok (PStr k) → attr_value r "id" = Ok i →
         ∀ key, Block_mem B (key, ds_id D, i) ↔ key = k).
Proof.
  intros Hkeys Hids.
  destruct (block_loop_no_black_list (ds_id D) (Some f) None (ds_records D) Block_new)
    as (B & Hrun & Hmem); [done..|].
  assert (∀ r k i, r ∈ ds_records D → f r = Ok (PStr k) → attr_value r "id" = Ok i →
            Block_mem B (k, ds_id D, i)) as Hin.
  { intros r k i Hr Hk Hi. apply Hmem. right. by exists r. }
  exists B. split_and!; [|done| |].
  - unfold block. simpl. by rewrite Hrun.
  - intros t Ht. apply Hmem in Ht as [Hn|Ht]; [by apply Block_mem_new in Hn|done].
  - intros Hnd r k i Hr Hk Hi key. split; [|intros ->; by eapply Hin].
    intros [Hn|(r' & Hr' & Hk' & _ & Hi')]%Hmem; [by apply Block_mem_new in Hn|].
    simpl in *. assert (r' = r) as ->.
    { apply (NoDup_fmap_eq (λ r, attr_value r "id") (ds_records D)); [done..|congruence]. }
    congruence.
Qed.


(** C4 (amended). When the key of a record is not a string and is not
    excluded, the call raises [ValueError] at that record: the block and
    the black-list are as the records before it left them, whatever
    follows in the dataset. *)
Theorem block_non_string_key_stops ds pre r post f p b0 (bl0 : option BL) st1 b1 v :
  block (MkDataset ds pre) f p b0 bl0 = (st1, Ok b1) →
  extract_key f p r = Ok v →
  is_str v = false →
  excluded (st_black_list st1) v = false →
  block (MkDataset ds (pre ++ r :: post)) f p b0 bl0
    = (st1, Raise non_string_key_error).
Proof.
  unfold block. simpl. intros Hpre Hk Hs Hex.
  destruct (_block_args_check f p b0) as [e|b]; [done|].
  rewrite for_each_app.
  destruct (for_each pre _ _) as [st [e|[]]]; [done|].
  injection Hpre as -> _.
  rewrite for_each_cons.
  by rewrite (block_record_non_string ds f p r st1 v Hk Hex Hs).
Qed.

End BlockProperties.

(** ** [record.py]: equality *)

Lemma issubclass_same_mro (c d : Class) :
  class_mro c = class_mro d → issubclass c d = true.
Proof. intros H. destruct c; simpl; by rewrite bool_decide_eq_true_2. Qed.

Lemma issubclass_mro_length (c d : Class) :
  issubclass c d = true →
  class_mro c = class_mro d ∨ (length (class_mro d) < length (class_mro c))%nat.
Proof.
  induction c as [|tag n own p IH]; simpl; intros H.
  - apply orb_true_iff in H as [H|H]; [|done]. left. by apply bool_decide_eq_true in H.
  - apply orb_true_iff in H as [H|H].
    + left. by apply bool_decide_eq_true in H.
    + right. destruct (IH H) as [Heq|Hlt]; [rewrite Heq|]; lia.
Qed.

Lemma issubclass_antisym (c d : Class) :
  issubclass c d = true → issubclass d c = true → class_mro c = class_mro d.
Proof.
  intros [H1|H1]%issubclass_mro_length [H2|H2]%issubclass_mro_length;
    try done; lia.
Qed.

(** Two classes have the same chain of identities exactly when they are the
    same class. *)
Lemma class_mro_same_class (c d : Class) :
  class_mro c = class_mro d ↔ same_class c d.
Proof.
  split.
  - revert d. induction c as [|tag n own p IH]; intros [|tag' n' own' p']; simpl;
      intros H; try done.
    + constructor.
    + injection H as -> H. constructor. by apply IH.
  - induction 1 as [|tag n1 own1 p1 n2 own2 p2 _ IH]; simpl; [done|]. by rewrite IH.
Qed.

Lemma Record_eq_other_class (r s : Obj) :
  issubclass (obj_class s) (obj_class r) = false → Record_eq r s = Ok false.
Proof. intros H. unfold Record_eq, isinstance. by rewrite H. Qed.

Lemma eq_op_other_class (r s : Obj) :
  class_mro (obj_class r) ≠ class_mro (obj_class s) → eq_op r s = Ok false.
Proof.
  intros Hne. unfold eq_op. rewrite bool_decide_eq_false_2 by done. simpl.
  destruct (issubclass (obj_class s) (obj_class r)) eqn:Hsub.
  - apply Record_eq_other_class.
    destruct (issubclass (obj_class r) (obj_class s)) eqn:Hsub'; [|done].
    destruct Hne. by apply issubclass_antisym.
  - by apply Record_eq_other_class.
Qed.

Lemma eq_op_same_class (r s : Obj) :
  class_mro (obj_class r) = class_mro (obj_class s) →
  eq_op r s =
    result_bind (attr_value r "id") (λ a,
    result_bind (attr_value s "id") (λ b, Ok (py_eqb a b))).
Proof.
  intros Heq. unfold eq_op. rewrite bool_decide_eq_true_2 by done. simpl.
  unfold Record_eq, isinstance. by rewrite issubclass_same_mro.
Qed.

Lemma eq_op_true (r s : Obj) :
  eq_op r s = Ok true ↔
  class_mro (obj_class r) = class_mro (obj_class s)
  ∧ ∃ v, attr_value r "id" = Ok v ∧ attr_value s "id" = Ok v.
Proof.
  destruct (decide (class_mro (obj_class r) = class_mro (obj_class s))) as [Heq|Hne].
  - rewrite (eq_op_same_class r s Heq).
    destruct (attr_value r "id") as [e|a]; simpl.
    { split; [done|]. by intros [_ (v & ? & _)]. }
    destruct (attr_value s "id") as [e|b]; simpl.
    { split; [done|]. by intros [_ (v & _ & ?)]. }
    unfold py_eqb. split.
    + intros [= H]. apply bool_decide_eq_true in H as ->. eauto.
    + intros [_ (v & [= ->] & [= ->])]. by rewrite bool_decide_eq_true_2.
  - rewrite (eq_op_other_class r s Hne). split; [done|]. by intros [? _].
Qed.

(** C5. [r == s] holds exactly when [r] and [s] are instances of the same
    class (the same class object, not a class of the same name or of the
    same content, nor a subclass) and their ids are equal; records of
    different classes compare unequal whatever their ids; and [r == s] holds
    exactly when [s == r] does. *)
Theorem Record_equality (r s : Obj) :
  (eq_op r s = Ok true ↔
     same_class (obj_class r) (obj_class s)
     ∧ ∃ v, attr_value r "id" = Ok v ∧ attr_value s "id" = Ok v)
  ∧ (¬ same_class (obj_class r) (obj_class s) → eq_op r s = Ok false)
  ∧ (eq_op r s = Ok true ↔ eq_op s r = Ok true).
Proof.
  split_and!.
  - rewrite eq_op_true. by rewrite class_mro_same_class.
  - intros Hne. apply eq_op_other_class. by rewrite class_mro_same_class.
  - rewrite !eq_op_true. split; intros [Hc (v & H1 & H2)]; eauto.
Qed.

(** ** [record.py]: validation *)

Lemma at_dollar_spec (s : string) :
  at_dollar s = true ↔
  has_star s = false ∧ (String.length s = 0 ∨ (String.length s = 1 ∧ ends_with_newline s = true)).
Proof.
  destruct s as [|c [|c' s']]; simpl.
  - split; [auto|done].
  - rewrite orb_false_r. split.
    + intros H. apply bool_decide_eq_true in H as ->. split; [done|]. right. done.
    + intros [_ [?|[_ ?]]]; done.
  - split; [done|]. intros [_ [?|[? _]]]; done.
Qed.

Lemma match_not_star_rep_cons (lo hi : nat) (c : ascii) (s' : string) :
  match_not_star_rep lo (S hi) (String c s') =
  if bool_decide (c = star) then Nat.eqb lo 0 && at_dollar (String c s')
  else match_not_star_rep (pred lo) hi s' || (Nat.eqb lo 0 && at_dollar (String c s')).
Proof. reflexivity. Qed.

Lemma ends_with_newline_cons (c : ascii) (s' : string) :
  s' ≠ EmptyString → ends_with_newline (String c s') = ends_with_newline s'.
Proof. by destruct s'. Qed.

Lemma length_String (c : ascii) (s' : string) :
  String.length (String c s') = S (String.length s').
Proof. reflexivity. Qed.

Lemma has_star_cons (c : ascii) (s' : string) :
  has_star (String c s') = bool_decide (c = star) || has_star s'.
Proof. reflexivity. Qed.

Lemma match_not_star_rep_0_spec (hi : nat) (s : string) :
  match_not_star_rep 0 hi s = true ↔
  has_star s = false
  ∧ ((String.length s ≤ hi)%nat ∨ (String.length s = S hi ∧ ends_with_newline s = true)).
Proof.
  revert s. induction hi as [|hi IH]; intros s.
  - assert (match_not_star_rep 0 0 s = at_dollar s) as -> by by destruct s.
    rewrite at_dollar_spec.
    split; intros [Hs [H|[H1 H2]]]; (split; [exact Hs|]);
      first [left; lia | right; split; [lia|done]].
  - destruct s as [|c s']; [split; [intros _; split; [done|left; simpl; lia]|done]|].
    rewrite match_not_star_rep_cons, has_star_cons, length_String.
    destruct (bool_decide (c = star)) eqn:Hc.
    + split; [|by intros [? _]]. apply bool_decide_eq_true in Hc as ->.
      by destruct s'.
    + change (pred 0) with 0.
      assert (match_not_star_rep 0 hi s' || (Nat.eqb 0 0 && at_dollar (String c s'))
              = match_not_star_rep 0 hi s') as ->.
      { destruct s'; [by destruct hi|]. simpl at_dollar. by rewrite orb_false_r. }
      rewrite IH, orb_false_l.
      split; intros [Hs H]; (split; [done|]); destruct H as [Hl|[Hl He]].
      * left. lia.
      * right. split; [lia|]. rewrite ends_with_newline_cons; [done|]. by intros ->.
      * left. lia.
      * right. assert (String.length s' = S hi) as Hl' by lia.
        split; [done|]. rewrite ends_with_newline_cons in He; [done|]. by intros ->.
Qed.

(** What [re_record_id] matches: the strings without ['*'] of 1 to 255
    characters, and those of 256 characters that end in a newline. *)
Lemma re_record_id_match_spec (s : string) :
  re_record_id_match s = true ↔
  has_star s = false
  ∧ ((1 ≤ String.length s ≤ 255)%nat
     ∨ (String.length s = 256 ∧ ends_with_newline s = true)).
Proof.
  unfold re_record_id_match. destruct s as [|c s'].
  - simpl. split; [done|]. intros [_ [?|[? _]]]; [lia|done].
  - rewrite match_not_star_rep_cons, has_star_cons, length_String.
    change (Nat.eqb 1 0) with false. rewrite !andb_false_l, orb_false_r.
    change (pred 1) with 0.
    destruct (bool_decide (c = star)) eqn:Hc.
    + split; [done|by intros [? _]].
    + rewrite match_not_star_rep_0_spec, orb_false_l.
      split; intros [Hs H]; (split; [done|]); destruct H as [Hl|[Hl He]].
      * left. lia.
      * right. split; [lia|]. rewrite ends_with_newline_cons; [done|]. by intros ->.
      * left. lia.
      * right. assert (String.length s' = 255) as Hl' by lia.
        split; [done|]. rewrite ends_with_newline_cons in He; [done|]. by intros ->.
Qed.

Lemma validate_record_not_str c w w1 v :
  getattr c "id" w = (w1, Ok v) → is_str v = false →
  validate_record c w =
    (w1, Raise (MkExn TypeError
                  ("Id in " ++ class_name c ++ " should be an utf-8 encoded string."))).
Proof.
  intros Hg Hs. unfold validate_record, bind. rewrite Hg. by rewrite Hs.
Qed.

Lemma validate_record_str c w w1 w2 s s' :
  getattr c "id" w = (w1, Ok (PStr s')) →
  getattr c "id" w1 = (w2, Ok (PStr s)) →
  validate_record c w =
    (w2, if re_record_id_match s then Ok tt else Raise (MkExn ValueError "Id is not valid")).
Proof.
  intros Hg1 Hg2. unfold validate_record, bind. rewrite Hg1. simpl. rewrite Hg2.
  by destruct (re_record_id_match s).
Qed.

(** ** [record.py]: cached properties *)

Lemma cached_property_get_spec (fname : string) (func : Method) (w : World) :
  cached_property_get fname func w =
  match w_dict w !! fname with
  | Some v => (w, Ok v)
  | None =>
      match func (w_dict w) with
      | Ok v => (MkWorld (<[fname := v]> (w_dict w)) (w_calls w ++ [fname]), Ok v)
      | Raise e => (MkWorld (w_dict w) (w_calls w ++ [fname]), Raise e)
      end
  end.
Proof.
  unfold cached_property_get, bind, get_store, call, store_attr, modify, ret.
  destruct (w_dict w !! fname) as [v|] eqn:Hl; simpl; [by rewrite Hl|].
  destruct (func (w_dict w)) as [e|v]; simpl; [done|].
  by rewrite lookup_insert_eq.
Qed.

Lemma class_lookup_own (c : Class) (name : string) (a : ClassAttr) :
  dict_lookup name (class_dict c) = Some a → class_lookup c name = Some a.
Proof. intros H. destruct c; simpl in *; by rewrite H. Qed.

Lemma dict_lookup_elem {A} (name : string) (d : list (string * A)) (a : A) :
  dict_lookup name d = Some a → (name, a) ∈ d.
Proof.
  induction d as [|[n x] d IH]; simpl; [done|].
  destruct (String.eqb n name) eqn:Hn.
  - intros [= ->]. apply String.eqb_eq in Hn as ->. by left.
  - intros H. right. by apply IH.
Qed.

Lemma getattr_cached_hit c name fname func w v :
  class_lookup c name = Some (CachedProperty fname func) →
  w_dict w !! fname = Some v →
  getattr c name w = (w, Ok v).
Proof.
  intros Hc Hl. unfold getattr. rewrite Hc, cached_property_get_spec. by rewrite Hl.
Qed.

Lemma getattr_cached_stored c name fname func w w' v :
  class_lookup c name = Some (CachedProperty fname func) →
  getattr c name w = (w', Ok v) →
  w_dict w' !! fname = Some v.
Proof.
  intros Hc. unfold getattr. rewrite Hc, cached_property_get_spec.
  destruct (w_dict w !! fname) as [x|] eqn:Hl; [by intros [= <- <-]|].
  destruct (func (w_dict w)) as [e|x]; [done|].
  intros [= <- <-]. simpl. apply lookup_insert_eq.
Qed.

(** Reading an attribute never changes or removes what the instance
    already stores. *)
Lemma getattr_mono c name w w' res k x :
  getattr c name w = (w', res) →
  w_dict w !! k = Some x → w_dict w' !! k = Some x.
Proof.
  unfold getattr.
  destruct (class_lookup c name) as [[func|fname func|v]|].
  - unfold call. by intros [= <- _].
  - rewrite cached_property_get_spec.
    destruct (w_dict w !! fname) as [y|] eqn:Hl; [by intros [= <- _]|].
    destruct (func (w_dict w)) as [e|y]; intros [= <- _] Hk; simpl; [done|].
    rewrite lookup_insert_ne; [done|]. intros ->. congruence.
  - unfold bind, get_store, ret. by intros [= <- _].
  - unfold bind, get_store, ret, raise.
    destruct (w_dict w !! name); by intros [= <- _].
Qed.

Lemma force_cached_property_mono c item w w' res k x :
  force_cached_property c item w = (w', res) →
  w_dict w !! k = Some x → w_dict w' !! k = Some x.
Proof.
  destruct item as [n [func|fname func|v]]; simpl; try by intros [= <- _].
  unfold bind, ret. destruct (getattr c n w) as [w1 [e|y]] eqn:Hg;
    intros [= <- _]; by eapply getattr_mono.
Qed.

Lemma force_loop_mono c items w w' res k x :
  for_each items (force_cached_property c) w = (w', res) →
  w_dict w !! k = Some x → w_dict w' !! k = Some x.
Proof.
  revert w. induction items as [|item items IH]; intros w; [by intros [= <- _]|].
  rewrite for_each_cons.
  destruct (force_cached_property c item w) as [w1 [e|[]]] eqn:Hf; intros Hl Hk.
  - injection Hl as <- _. by eapply force_cached_property_mono.
  - eapply IH; [done|]. by eapply force_cached_property_mono.
Qed.

Lemma force_loop_stores c items w w' name fname func :
  for_each items (force_cached_property c) w = (w', Ok tt) →
  (name, CachedProperty fname func) ∈ items →
  class_lookup c name = Some (CachedProperty fname func) →
  is_Some (w_dict w' !! fname).
Proof.
  revert w. induction items as [|item items IH]; intros w Hl Hin Hc;
    [by apply elem_of_nil in Hin|].
  rewrite for_each_cons in Hl.
  destruct (force_cached_property c item w) as [w1 [e|[]]] eqn:Hf; [done|].
  apply elem_of_cons in Hin as [<-|Hin]; [|by eapply IH].
  simpl in Hf. unfold bind, ret in Hf.
  destruct (getattr c name w) as [w2 [e|y]] eqn:Hg; [done|]. injection Hf as ->.
  exists y. eapply force_loop_mono; [done|]. by eapply getattr_cached_stored.
Qed.

Lemma validate_record_mono c w w' res k x :
  validate_record c w = (w', res) →
  w_dict w !! k = Some x → w_dict w' !! k = Some x.
Proof.
  unfold validate_record, bind, raise, ret.
  destruct (getattr c "id" w) as [w1 [e|v]] eqn:Hg1.
  { intros [= <- _]. by eapply getattr_mono. }
  destruct (negb (is_str v)).
  { intros [= <- _]. by eapply getattr_mono. }
  destruct (getattr c "id" w1) as [w2 [e|v']] eqn:Hg2.
  { intros [= <- _] Hk. eapply getattr_mono; [done|]. by eapply getattr_mono. }
  intros Hres Hk.
  assert (w' = w2) as ->.
  { destruct v' as [[s|z|]|d]; try by injection Hres.
    destruct (negb (re_record_id_match s)); by injection Hres. }
  eapply getattr_mono; [done|]. by eapply getattr_mono.
Qed.

Lemma validate_record_ok c w w' :
  validate_record c w = (w', Ok tt) →
  ∃ w1 s0 s,
    getattr c "id" w = (w1, Ok (PStr s0))
    ∧ getattr c "id" w1 = (w', Ok (PStr s))
    ∧ re_record_id_match s = true.
Proof.
  unfold validate_record, bind, raise, ret.
  destruct (getattr c "id" w) as [w1 [e|v]] eqn:Hg1; [done|].
  destruct v as [[s0|z|]|d]; simpl; try done.
  destruct (getattr c "id" w1) as [w2 [e|v']] eqn:Hg2; [done|].
  destruct v' as [[s|z|]|d]; try done.
  destruct (re_record_id_match s) eqn:Hm; simpl; [|done].
  intros [= <-]. by exists w1, s0, s.
Qed.


(** What a normal return of [generate_record_property_cache(obj)]
    guarantees for the cached properties of the class's own [__dict__]: the
    call ran the loop over that [__dict__], then [validate_record], then the
    removal of [raw_object] exactly when the class's [remove_raw_object] is
    true; every [cached_property] of the class's [__dict__] is stored on the
    instance and reading it returns the stored value without touching the
    instance; the id that was validated is a string that matches the
    pattern, and a cached id stays readable; every cached attribute whose
    value is stored is read back as stored, raw object or not; [raw_object]
    is gone when the flag is true and untouched when it is false. *)
Theorem generate_record_property_cache_spec c d calls w' :
  generate_record_property_cache c (MkWorld d calls) = (w', Ok tt) →
  ∃ wa wb flag,
    for_each (class_dict c) (force_cached_property c) (MkWorld d calls) = (wa, Ok tt)
    ∧ validate_record c wa = (wb, Ok tt)
    ∧ class_remove_raw_object c = Ok flag
    ∧ w' = (if truthy flag
            then MkWorld (delete "raw_object" (w_dict wb)) (w_calls wb) else wb)
    ∧ (∀ name fname func,
         dict_lookup name (class_dict c) = Some (CachedProperty fname func) →
         fname ≠ "raw_object" →
         ∃ v, w_dict w' !! fname = Some v ∧ getattr c name w' = (w', Ok v))
    ∧ (∃ s, re_record_id_match s = true
            ∧ ∀ fname func,
                class_lookup c "id" = Some (CachedProperty fname func) →
                fname ≠ "raw_object" →
                w_dict w' !! fname = Some (PStr s)
                ∧ getattr c "id" w' = (w', Ok (PStr s)))
    ∧ (∀ name fname func v,
         class_lookup c name = Some (CachedProperty fname func) →
         w_dict w' !! fname = Some v → getattr c name w' = (w', Ok v))
    ∧ (truthy flag = true → w_dict w' !! "raw_object" = None)
    ∧ (truthy flag = false →
         ∀ raw, d !! "raw_object" = Some raw → w_dict w' !! "raw_object" = Some raw).
Proof.
  unfold generate_record_property_cache, bind, lift_result.
  destruct (for_each _ _ _) as [wa [e|[]]] eqn:Hloop; [done|].
  destruct (validate_record c wa) as [wb [e|[]]] eqn:Hval; [done|].
  destruct (class_remove_raw_object c) as [e|flag] eqn:Hflag; [done|].
  intros Hdel.
  assert (w' = (if truthy flag
                then MkWorld (delete "raw_object" (w_dict wb)) (w_calls wb) else wb)) as Hw'.
  { destruct (truthy flag); [|by injection Hdel].
    unfold del_raw_object, bind, get_store, modify, raise in Hdel.
    destruct (w_dict wb !! "raw_object"); by injection Hdel. }
  assert (∀ k x, k ≠ "raw_object" → w_dict wb !! k = Some x → w_dict w' !! k = Some x)
    as Hkeep.
  { intros k x Hk Hx. rewrite Hw'. destruct (truthy flag); [|done].
    simpl. by rewrite lookup_delete_ne. }
  exists wa, wb, flag. split_and!; try done.
  - intros name fname func Hlk Hne.
    pose proof (class_lookup_own c name _ Hlk) as Hc.
    destruct (force_loop_stores c _ _ _ name fname func Hloop) as [v Hv];
      [by apply dict_lookup_elem|done|].
    exists v. split.
    + apply Hkeep; [done|]. by eapply validate_record_mono.
    + apply (getattr_cached_hit c name fname func); [done|].
      apply Hkeep; [done|]. by eapply validate_record_mono.
  - destruct (validate_record_ok c wa wb Hval) as (w1 & s0 & s & Hg1 & Hg2 & Hm).
    exists s. split; [done|]. intros fname func Hc Hne.
    pose proof (getattr_cached_stored c "id" fname func w1 wb (PStr s) Hc Hg2) as Hst.
    split; [by apply Hkeep|].
    apply (getattr_cached_hit c "id" fname func); [done|]. by apply Hkeep.
  - intros name fname func v Hc Hv. by apply (getattr_cached_hit c name fname func).
  - intros Ht. rewrite Hw', Ht. simpl. apply lookup_delete_eq.
  - intros Ht raw Hraw. rewrite Hw', Ht.
    eapply validate_record_mono; [done|]. by eapply force_loop_mono.
Qed.

(** ** Worked examples *)

(** The example of the spec: blocking [A] and [B] on [name] and merging. *)
Example block_A_triples :
  Block_iter block_A = [("mary", "A", PStr "a2"); ("john", "A", PStr "a1")].
Proof. vm_compute. reflexivity. Qed.

Example block_B_triples :
  Block_iter block_B = [("john", "B", PStr "b1")].
Proof. vm_compute. reflexivity. Qed.

Example generate_A_B_triples :
  Block_iter (generate block_A block_B None)
  = [("mary", "A", PStr "a2"); ("john", "A", PStr "a1"); ("john", "B", PStr "b1")].
Proof. vm_compute. reflexivity. Qed.

(** With threshold 1, the third record with the key ["x"] is left out. *)
Example counting_black_list_excludes :
  Block_iter
    (st_block
       (block (MkDataset "A" [person "a1" (SStr "x"); person "a2" (SStr "x");
                               person "a3" (SStr "x")])
              (Some name_key) None None (Some (MkCBL 1 ∅))).1)
  = [("x", "A", PStr "a1"); ("x", "A", PStr "a2")].
Proof. vm_compute. reflexivity. Qed.

(** [Record.__eq__] called directly accepts an instance of a subclass as
    [other]; the operator [==] asks the instance of the subclass first and
    answers [False]. *)
Example Record_eq_with_subclass_instance :
  let r := Record_init RawIdRecord (PStr "x") in
  let s := Record_init ChildRecord (PStr "x") in
  Record_eq r s = Ok true ∧ Record_eq s r = Ok false
  ∧ eq_op r s = Ok false ∧ eq_op s r = Ok false.
Proof. vm_compute. done. Qed.

(** The spec's example record, finalised: the id is cached, the raw object
    is removed, the attribute set by [__init__] stays. *)
Example generate_record_property_cache_person :
  generate_record_property_cache AutoGeneratedRecord
    (MkWorld (obj_dict (person "a1" (SStr "john"))) [])
  = (MkWorld {[ "id" := PStr "a1"; "name" := PStr "john" ]} ["id"], Ok tt).
Proof. vm_compute. reflexivity. Qed.

(** Two classes of the same name and the same body are two classes: an
    instance of one never equals an instance of the other, while two
    instances of the same class with equal ids are equal. *)
Example Record_eq_same_name_classes :
  let r := Record_init Person_first (PStr "x") in
  let s := Record_init Person_second (PStr "x") in
  class_name Person_first = class_name Person_second
  ∧ eq_op r s = Ok false ∧ eq_op s r = Ok false
  ∧ Record_eq r s = Ok false
  ∧ eq_op r (Record_init Person_first (PStr "x")) = Ok true.
Proof. vm_compute. done. Qed.

(** C9. A [cached_property] inherited from a base class is not in the
    [__dict__] of the instance's class, and the loop of
    [generate_record_property_cache] does not force it.  On an instance of
    [SlimRecord], whose base [NamedRecord] declares the cached properties
    [id] and [name], the call returns normally and removes the raw object
    with [name] never computed; reading [name] afterwards raises
    [AttributeError], against "every cached attribute remains accessible
    without the raw object" (the id is readable only because
    [validate_record] read it).  On the base class itself, decorated the
    same way, both cached properties are forced and stay readable; without
    the decorator the raw object is kept. *)
Theorem generate_record_property_cache_skips_inherited :
  let raw := PDict {[ "id" := SStr "a1"; "name" := SStr "john" ]} in
  let w0 := MkWorld {[ "raw_object" := raw ]} [] in
  let w1 := MkWorld {[ "id" := PStr "a1" ]} ["id"] in
  obj_dict (Record_init SlimRecord raw) = w_dict w0
  ∧ class_lookup SlimRecord "name" = Some (CachedProperty "name" (raw_field "name"))
  ∧ generate_record_property_cache SlimRecord w0 = (w1, Ok tt)
  ∧ getattr SlimRecord "name" w1
    = (MkWorld {[ "id" := PStr "a1" ]} ["id"; "name"],
       Raise (MkExn AttributeError "raw_object"))
  ∧ getattr SlimRecord "id" w1 = (w1, Ok (PStr "a1"))
  ∧ (let c := remove_raw_object NamedRecord in
     let w2 := MkWorld {[ "id" := PStr "a1"; "name" := PStr "john" ]}
                       ["id"; "name"] in
     generate_record_property_cache c w0 = (w2, Ok tt)
     ∧ getattr c "name" w2 = (w2, Ok (PStr "john")))
  ∧ generate_record_property_cache NamedRecord w0
    = (MkWorld {[ "raw_object" := raw; "id" := PStr "a1"; "name" := PStr "john" ]}
               ["id"; "name"], Ok tt).
Proof. cbv zeta. split_and!; vm_compute; reflexivity. Qed.

(** C6. [validate_record] accepts an id of 256 characters without ['*']
    when its last character is a newline, although the id is longer than 255
    characters. *)
Theorem validate_record_accepts_256_characters :
  let o := Record_init RawIdRecord (PStr long_newline_id) in
  String.length long_newline_id = 256
  ∧ has_star long_newline_id = false
  ∧ attr_value o "id" = Ok (PStr long_newline_id)
  ∧ validate_record (obj_class o) (MkWorld (obj_dict o) [])
    = (MkWorld (obj_dict o) ["id"; "id"], Ok tt).
Proof. vm_compute. done. Qed.

(** C4 (as stated). On a dataset whose second record has an integer key,
    [block] raises [ValueError], not [TypeError]. *)
Lemma block_non_string_key_raises_ValueError :
  (block dataset_int_key (Some name_key) None None (None : option CountingBlackList)).2
    = Raise non_string_key_error
  ∧ exc_class non_string_key_error = ValueError
  ∧ exc_class non_string_key_error ≠ TypeError.
Proof. split_and!; [reflexivity|reflexivity|discriminate]. Qed.

(** ** The theorems at concrete inputs *)

Lemma block_groups_every_record_witness :
  ∃ B : Block,
    block dataset_A (Some name_key) None None (None : option CountingBlackList)
      = (MkStore B None, Ok B)
    ∧ (∀ r k i, r ∈ ds_records dataset_A → name_key r = Ok (PStr k) →
         attr_value r "id" = Ok i →
         Block_mem B (k, ds_id dataset_A, i))
    ∧ (∀ t, Block_mem B t →
         ∃ r, r ∈ ds_records dataset_A ∧ name_key r = Ok (PStr t.1.1)
              ∧ t.1.2 = ds_id dataset_A ∧ attr_value r "id" = Ok t.2)
    ∧ (NoDup ((λ r, attr_value r "id") <$> ds_records dataset_A) →
       ∀ r k i, r ∈ ds_records dataset_A → name_key r = Ok (PStr k) →
         attr_value r "id" = Ok i →
         ∀ key, Block_mem B (key, ds_id dataset_A, i) ↔ key = k).
Proof.
  apply (block_groups_every_record dataset_A name_key).
  - intros r Hr. simpl in Hr.
    apply elem_of_cons in Hr as [->|Hr]; [by exists "john"; vm_compute|].
    apply elem_of_cons in Hr as [->|Hr]; [by exists "mary"; vm_compute|].
    by apply elem_of_nil in Hr.
  - intros r Hr. simpl in Hr.
    apply elem_of_cons in Hr as [->|Hr]; [by exists (PStr "a1"); vm_compute|].
    apply elem_of_cons in Hr as [->|Hr]; [by exists (PStr "a2"); vm_compute|].
    by apply elem_of_nil in Hr.
Defined.

(** The ids of the records of [dataset_A] are distinct. *)
Example dataset_A_distinct_ids :
  NoDup ((λ r, attr_value r "id") <$> ds_records dataset_A).
Proof. apply (bool_decide_unpack (NoDup _)). vm_compute. exact I. Qed.


Lemma block_non_string_key_stops_witness :
  let st1 := MkStore (Block_add ∅ "john" "A" (PStr "a1")) (None : option CountingBlackList) in
  block dataset_int_key (Some name_key) None None None
    = (st1, Raise non_string_key_error).
Proof.
  intros st1.
  apply (block_non_string_key_stops "A" [person "a1" (SStr "john")]
           (person "a2" (SInt 5)) [person "a3" (SStr "mary")]
           (Some name_key) None None None st1 (st_block st1) (PInt 5));
    reflexivity.
Defined.



Lemma generate_record_property_cache_spec_witness :
  let c := AutoGeneratedRecord in
  let d := obj_dict (person "a1" (SStr "john")) in
  let w' := MkWorld (<["id" := PStr "a1"]> (delete "raw_object" d)) ["id"] in
  ∃ wa wb flag,
    for_each (class_dict c) (force_cached_property c) (MkWorld d []) = (wa, Ok tt)
    ∧ validate_record c wa = (wb, Ok tt)
    ∧ class_remove_raw_object c = Ok flag
    ∧ w' = (if truthy flag
            then MkWorld (delete "raw_object" (w_dict wb)) (w_calls wb) else wb)
    ∧ (∀ name fname func,
         dict_lookup name (class_dict c) = Some (CachedProperty fname func) →
         fname ≠ "raw_object" →
         ∃ v, w_dict w' !! fname = Some v ∧ getattr c name w' = (w', Ok v))
    ∧ (∃ s, re_record_id_match s = true
            ∧ ∀ fname func,
                class_lookup c "id" = Some (CachedProperty fname func) →
                fname ≠ "raw_object" →
                w_dict w' !! fname = Some (PStr s)
                ∧ getattr c "id" w' = (w', Ok (PStr s)))
    ∧ (∀ name fname func v,
         class_lookup c name = Some (CachedProperty fname func) →
         w_dict w' !! fname = Some v → getattr c name w' = (w', Ok v))
    ∧ (truthy flag = true → w_dict w' !! "raw_object" = None)
    ∧ (truthy flag = false →
         ∀ raw, d !! "raw_object" = Some raw → w_dict w' !! "raw_object" = Some raw).
Proof.
  intros c d w'.
  apply (generate_record_property_cache_spec c d [] w').
  vm_compute. reflexivity.
Defined.

(** * Further properties of [record.py] *)

(** ** Reading attributes and finalising *)

Lemma class_lookup_cached_not_named (k : string) (c : Class) name fname func :
  no_cached_named k c →
  class_lookup c name = Some (CachedProperty fname func) →
  fname ≠ k.
Proof.
  induction c as [|tag n own p IH].
  - intros _ H.
    change (class_lookup RecordClass name)
      with (match dict_lookup name Record_dict with Some a => Some a | None => None end)
      in H.
    unfold Record_dict, dict_lookup in H.
    destruct (String.eqb "remove_raw_object" name); [done|].
    by destruct (String.eqb "id" name).
  - simpl. intros [Hown Hp]. destruct (dict_lookup name own) as [a|] eqn:Hl.
    + intros [= ->]. apply dict_lookup_elem in Hl.
      rewrite Forall_forall in Hown. apply list_elem_of_In in Hl.
      by apply (Hown _ Hl).
    + by apply IH.
Qed.

(** Reading an attribute does not create an entry under [k] unless a
    [cached_property] stores under that name. *)
Lemma getattr_absent (k : string) c name w w' res :
  no_cached_named k c →
  getattr c name w = (w', res) →
  w_dict w !! k = None → w_dict w' !! k = None.
Proof.
  intros Hno. unfold getattr.
  destruct (class_lookup c name) as [[func|fname func|v]|] eqn:Hc.
  - unfold call. by intros [= <- _].
  - rewrite cached_property_get_spec.
    destruct (w_dict w !! fname) as [y|] eqn:Hl; [by intros [= <- _]|].
    destruct (func (w_dict w)) as [e|y]; intros [= <- _] Hk; simpl; [done|].
    rewrite lookup_insert_ne; [done|].
    by apply (class_lookup_cached_not_named k c name fname func).
  - unfold bind, get_store, ret. by intros [= <- _].
  - unfold bind, get_store, ret, raise.
    destruct (w_dict w !! name); by intros [= <- _].
Qed.

Lemma force_loop_absent (k : string) c items w w' res :
  no_cached_named k c →
  for_each items (force_cached_property c) w = (w', res) →
  w_dict w !! k = None → w_dict w' !! k = None.
Proof.
  intros Hno. revert w. induction items as [|[n a] items IH]; intros w;
    [by intros [= <- _]|].
  rewrite for_each_cons.
  destruct (force_cached_property c (n, a) w) as [w1 [e|[]]] eqn:Hf; intros Hl Hk.
  - injection Hl as <- _. destruct a; simpl in Hf; try by injection Hf as <-.
    unfold bind, ret in Hf. destruct (getattr c n w) as [w2 [e'|y]] eqn:Hg;
      injection Hf as <-; by eapply getattr_absent.
  - eapply IH; [done|]. destruct a; simpl in Hf; try by injection Hf as <-.
    unfold bind, ret in Hf. destruct (getattr c n w) as [w2 [e'|y]] eqn:Hg;
      [done|]. injection Hf as <-. by eapply getattr_absent.
Qed.

Lemma validate_record_absent (k : string) c w w' res :
  no_cached_named k c →
  validate_record c w = (w', res) →
  w_dict w !! k = None → w_dict w' !! k = None.
Proof.
  intros Hno. unfold validate_record, bind, raise, ret.
  destruct (getattr c "id" w) as [w1 [e|v]] eqn:Hg1.
  { intros [= <- _]. by eapply getattr_absent. }
  destruct (negb (is_str v)).
  { intros [= <- _]. by eapply getattr_absent. }
  destruct (getattr c "id" w1) as [w2 [e|v']] eqn:Hg2.
  { intros [= <- _] Hk. eapply getattr_absent; [done..|]. by eapply getattr_absent. }
  intros Hres Hk.
  assert (w' = w2) as ->.
  { destruct v' as [[s|z|]|d]; try by injection Hres.
    destruct (negb (re_record_id_match s)); by injection Hres. }
  eapply getattr_absent; [done..|]. by eapply getattr_absent.
Qed.

(** The steps of [generate_record_property_cache], whatever its outcome. *)
Lemma generate_record_property_cache_cases c w w' res :
  generate_record_property_cache c w = (w', res) →
  (∃ e, res = Raise e
        ∧ ((for_each (class_dict c) (force_cached_property c) w = (w', Raise e))
           ∨ (∃ wa, for_each (class_dict c) (force_cached_property c) w = (wa, Ok tt)
                    ∧ validate_record c wa = (w', Raise e))
           ∨ (∃ wa, for_each (class_dict c) (force_cached_property c) w = (wa, Ok tt)
                    ∧ validate_record c wa = (w', Ok tt)
                    ∧ (class_remove_raw_object c = Raise e
                       ∨ (∃ flag, class_remove_raw_object c = Ok flag
                                  ∧ truthy flag = true
                                  ∧ w_dict w' !! "raw_object" = None)))))
  ∨ (res = Ok tt
     ∧ ∃ wa wb flag,
         for_each (class_dict c) (force_cached_property c) w = (wa, Ok tt)
         ∧ validate_record c wa = (wb, Ok tt)
         ∧ class_remove_raw_object c = Ok flag
         ∧ w' = (if truthy flag
                 then MkWorld (delete "raw_object" (w_dict wb)) (w_calls wb) else wb)
         ∧ (truthy flag = true → is_Some (w_dict wb !! "raw_object"))).
Proof.
  unfold generate_record_property_cache, bind, lift_result.
  destruct (for_each _ _ _) as [wa [e|[]]] eqn:Hloop.
  { intros [= <- <-]. left. exists e. split; [done|]. by left. }
  destruct (validate_record c wa) as [wb [e|[]]] eqn:Hval.
  { intros [= <- <-]. left. exists e. split; [done|]. right. left. by exists wa. }
  destruct (class_remove_raw_object c) as [e|flag] eqn:Hflag.
  { intros [= <- <-]. left. exists e. split; [done|]. right. right.
    exists wa. split_and!; [done..|]. by left. }
  destruct (truthy flag) eqn:Ht.
  - unfold del_raw_object, bind, get_store, modify, raise.
    destruct (w_dict wb !! "raw_object") as [raw|] eqn:Hraw.
    + intros [= <- <-]. right. split; [done|].
      exists wa, wb, flag. rewrite Ht. split_and!; try done; by rewrite Hraw.
    + intros [= <- <-]. left. eexists. split; [done|]. right. right.
      exists wa. split_and!; [done..|]. right. by exists flag.
  - unfold ret. intros [= <- <-]. right. split; [done|].
    exists wa, wb, flag. rewrite Ht. split_and!; done.
Qed.

(** X5. Whatever its outcome, [generate_record_property_cache] neither
    changes nor removes an attribute stored on the instance, other than
    [raw_object]. *)
Theorem generate_record_property_cache_keeps_attributes c w w' res k x :
  generate_record_property_cache c w = (w', res) →
  k ≠ "raw_object" →
  w_dict w !! k = Some x →
  w_dict w' !! k = Some x.
Proof.
  intros Hgen Hk Hx.
  apply generate_record_property_cache_cases in Hgen
    as [(e & -> & [Hl|[(wa & Hl & Hv)|(wa & Hl & Hv & _)]])
       |(-> & wa & wb & flag & Hl & Hv & _ & -> & _)].
  - by eapply force_loop_mono.
  - eapply validate_record_mono; [done|]. by eapply force_loop_mono.
  - eapply validate_record_mono; [done|]. by eapply force_loop_mono.
  - assert (w_dict wb !! k = Some x) as Hb.
    { eapply validate_record_mono; [done|]. by eapply force_loop_mono. }
    destruct (truthy flag); [|done]. simpl. by rewrite lookup_delete_ne.
Qed.

(** X6. When [generate_record_property_cache] raises, the raw object is
    still on the instance: it is removed only after every cached property
    was computed and the id was validated. *)
Theorem generate_record_property_cache_failure_keeps_raw_object c w w' e raw :
  generate_record_property_cache c w = (w', Raise e) →
  w_dict w !! "raw_object" = Some raw →
  w_dict w' !! "raw_object" = Some raw.
Proof.
  intros Hgen Hraw.
  apply generate_record_property_cache_cases in Hgen
    as [(e' & _ & [Hl|[(wa & Hl & Hv)|(wa & Hl & Hv & Hdel)]])|([=] & _)].
  - by eapply force_loop_mono.
  - eapply validate_record_mono; [done|]. by eapply force_loop_mono.
  - eapply validate_record_mono; [done|]. by eapply force_loop_mono.
Qed.

(** X7. Finalising twice fails: after a call that removed the raw object, a
    second call on the same instance raises (at the latest with [KeyError]
    on the removal), provided no [cached_property] stores under the name
    [raw_object]; the raw object stays absent. *)
Theorem generate_record_property_cache_twice c w w1 flag :
  generate_record_property_cache c w = (w1, Ok tt) →
  class_remove_raw_object c = Ok flag →
  truthy flag = true →
  no_cached_named "raw_object" c →
  ∃ w2 e, generate_record_property_cache c w1 = (w2, Raise e)
          ∧ w_dict w2 !! "raw_object" = None.
Proof.
  intros Hgen Hflag Ht Hno.
  assert (w_dict w1 !! "raw_object" = None) as Hnone.
  { apply generate_record_property_cache_cases in Hgen
      as [(e & [=] & _)|(_ & wa & wb & flag' & _ & _ & Hflag' & -> & _)].
    rewrite Hflag in Hflag'. injection Hflag' as <-. rewrite Ht. simpl.
    apply lookup_delete_eq. }
  destruct (generate_record_property_cache c w1) as [w2 res] eqn:Hgen2.
  pose proof Hgen2 as Hcases.
  apply generate_record_property_cache_cases in Hcases
    as [(e & -> & [Hl|[(wa & Hl & Hv)|(wa & Hl & Hv & _)]])
       |(-> & wa & wb & flag' & Hl & Hv & Hflag' & -> & Hsome)].
  - exists w2, e. split; [done|]. by eapply force_loop_absent.
  - exists w2, e. split; [done|].
    eapply validate_record_absent; [done..|]. by eapply force_loop_absent.
  - exists w2, e. split; [done|].
    eapply validate_record_absent; [done..|]. by eapply force_loop_absent.
  - rewrite Hflag in Hflag'. injection Hflag' as <-.
    destruct (Hsome Ht) as [raw Hraw].
    assert (w_dict wb !! "raw_object" = None) as Habs.
    { eapply validate_record_absent; [done..|]. by eapply force_loop_absent. }
    congruence.
Qed.

(** ** The default [id], failures and shared cache slots *)

(** X2. A class that does not define [id] inherits [Record.id]: reading the
    id raises [NotImplementedError], so does [validate_record], and so does
    [==] between two instances of that class. *)
Theorem Record_id_not_implemented c :
  class_lookup c "id" = class_lookup RecordClass "id" →
  let e := MkExn NotImplementedError "" in
  (∀ d calls,
     getattr c "id" (MkWorld d calls) = (MkWorld d (calls ++ ["id"]), Raise e)
     ∧ validate_record c (MkWorld d calls) = (MkWorld d (calls ++ ["id"]), Raise e))
  ∧ (∀ r s, obj_class r = c → obj_class s = c → eq_op r s = Raise e).
Proof.
  intros Hc e.
  assert (∀ d calls,
            getattr c "id" (MkWorld d calls) = (MkWorld d (calls ++ ["id"]), Raise e))
    as Hget.
  { intros d calls. unfold getattr. rewrite Hc. reflexivity. }
  split.
  - intros d calls. split; [apply Hget|].
    unfold validate_record, bind. by rewrite Hget.
  - intros r s Hr Hs. rewrite eq_op_same_class by congruence.
    unfold attr_value. rewrite Hr, Hget. reflexivity.
Qed.

(** X3. A failure is not cached: when the function of a [cached_property]
    raises, nothing is stored on the instance, and the next access invokes
    the function again. *)
Theorem cached_property_failure_not_cached c name fname func d calls e :
  class_lookup c name = Some (CachedProperty fname func) →
  d !! fname = None →
  func d = Raise e →
  let w1 := MkWorld d (calls ++ [fname]) in
  getattr c name (MkWorld d calls) = (w1, Raise e)
  ∧ getattr c name w1 = (MkWorld d ((calls ++ [fname]) ++ [fname]), Raise e).
Proof.
  intros Hc Hd Hf w1. unfold getattr. rewrite Hc, !cached_property_get_spec.
  simpl. by rewrite Hd, Hf.
Qed.

(** X4. The cache is keyed by the name of the decorated function: two
    cached properties whose functions have the same name share one slot, and
    once one of them was read the other returns the same stored value
    without invoking its own function. *)
Theorem cached_property_shared_slot c name1 name2 fname func1 func2 w w1 v :
  class_lookup c name1 = Some (CachedProperty fname func1) →
  class_lookup c name2 = Some (CachedProperty fname func2) →
  getattr c name1 w = (w1, Ok v) →
  getattr c name2 w1 = (w1, Ok v).
Proof.
  intros Hc1 Hc2 Hg.
  apply (getattr_cached_hit c name2 fname func2); [done|].
  by apply (getattr_cached_stored c name1 fname func1 w).
Qed.

(** ** [get_property_names] and the class decorator *)

Lemma get_property_names_foldl (d : list (string * ClassAttr)) (acc : list string) :
  foldl (λ (keys : list string) '(prop_name, prop_type),
           if negb (is_property prop_type) && negb (is_cached_property prop_type)
           then keys
           else (keys ++ [prop_name])%list)
        acc d
  = (acc ++ (filter (λ item, is_property item.2 = true) d).*1)%list.
Proof.
  revert acc. induction d as [|[n a] d IH]; intros acc.
  - simpl. by rewrite app_nil_r.
  - cbn [foldl]. rewrite IH. destruct a.
    + rewrite filter_cons_True by done. simpl. by rewrite <- app_assoc.
    + rewrite filter_cons_True by done. simpl. by rewrite <- app_assoc.
    + by rewrite filter_cons_False by done.
Qed.

Lemma get_property_names_filter (c : Class) :
  get_property_names c
  = (filter (λ item, is_property item.2 = true)
       (class_dict c : list (string * ClassAttr))).*1.
Proof. unfold get_property_names. by rewrite get_property_names_foldl. Qed.

(** X8. [get_property_names(cls)] lists exactly the names of the entries of
    the class's own [__dict__] that are a [property] or a
    [cached_property], in the order of the [__dict__]; in particular every
    name on which [generate_record_property_cache] forces a value is listed,
    and a class that defines nothing itself has no property names, whatever
    it inherits. *)
Theorem get_property_names_spec (c : Class) :
  (∀ name, name ∈ get_property_names c ↔
           ∃ a, (name, a) ∈ class_dict c ∧ is_property a = true)
  ∧ get_property_names c `sublist_of` (class_dict c).*1
  ∧ (∀ name fname func,
       (name, CachedProperty fname func) ∈ class_dict c → name ∈ get_property_names c)
  ∧ (class_dict c = [] → get_property_names c = []).
Proof.
  rewrite get_property_names_filter.
  assert (∀ name, name ∈ (filter (λ item, is_property item.2 = true)
                            (class_dict c : list (string * ClassAttr))).*1 ↔
                  ∃ a, (name, a) ∈ class_dict c ∧ is_property a = true) as Hmem.
  { intros name. rewrite list_elem_of_fmap. split.
    - intros ([n a] & -> & [Hp Hin]%list_elem_of_filter). by exists a.
    - intros (a & Hin & Hp). exists (name, a). split; [done|].
      by apply list_elem_of_filter. }
  split_and!.
  - apply Hmem.
  - apply fmap_sublist, sublist_filter.
  - intros name fname func Hin. apply Hmem. by exists (CachedProperty fname func).
  - by intros ->.
Qed.






(** ** [AutoGeneratedRecord] *)

Lemma AutoGeneratedRecord_dict_lookup (raw : gmap string Scalar) (k : string) :
  obj_dict (AutoGeneratedRecord_init raw) !! k =
  if decide (k = "id")
  then None
  else match raw !! k with
       | Some v => Some (PScalar v)
       | None => if decide (k = "raw_object") then Some (PDict raw) else None
       end.
Proof.
  unfold AutoGeneratedRecord_init. simpl.
  rewrite lookup_union, lookup_fmap.
  destruct (decide (k = "id")) as [->|Hid].
  - rewrite lookup_delete_eq. simpl. by rewrite lookup_singleton_ne.
  - rewrite lookup_delete_ne by done.
    destruct (raw !! k) as [v|]; simpl.
    + by destruct ({[ "raw_object" := PDict raw ]} !! k).
    + destruct (decide (k = "raw_object")) as [->|Hraw].
      * by rewrite lookup_singleton_eq.
      * by rewrite lookup_singleton_ne.
Qed.

Lemma class_lookup_AutoGeneratedRecord (k : string) :
  class_lookup AutoGeneratedRecord k =
  if String.eqb "id" k then Some (CachedProperty "id" AutoGeneratedRecord_id)
  else if String.eqb "remove_raw_object" k then Some (Value PTrue)
  else None.
Proof.
  change (class_lookup AutoGeneratedRecord k)
    with (match dict_lookup k [("id", CachedProperty "id" AutoGeneratedRecord_id);
                               ("remove_raw_object", Value PTrue)] with
          | Some a => Some a
          | None => match dict_lookup k Record_dict with
                    | Some a => Some a
                    | None => None
                    end
          end).
  unfold Record_dict. cbn [dict_lookup].
  destruct (String.eqb "id" k) eqn:Hid; [done|].
  by destruct (String.eqb "remove_raw_object" k) eqn:Hr.
Qed.


(** X11. Finalising an [AutoGeneratedRecord] whose raw mapping has a valid
    string id (and no key named ['raw_object']) succeeds, invokes the id
    function once, and leaves as the attributes of the instance exactly the
    items of the raw mapping, id included and raw object gone. *)
Theorem AutoGeneratedRecord_finalised (raw : gmap string Scalar) (s : string) :
  raw !! "id" = Some (SStr s) →
  re_record_id_match s = true →
  raw !! "raw_object" = None →
  generate_record_property_cache AutoGeneratedRecord
    (MkWorld (obj_dict (AutoGeneratedRecord_init raw)) [])
  = (MkWorld (PScalar <$> raw) ["id"], Ok tt).
Proof.
  intros Hid Hm Hnone.
  set (d := obj_dict (AutoGeneratedRecord_init raw)).
  assert (d !! "id" = None) as Hdid.
  { subst d. rewrite AutoGeneratedRecord_dict_lookup. by rewrite decide_True. }
  assert (d !! "raw_object" = Some (PDict raw)) as Hdraw.
  { subst d. rewrite AutoGeneratedRecord_dict_lookup.
    rewrite decide_False by done. rewrite Hnone. by rewrite decide_True. }
  assert (AutoGeneratedRecord_id d = Ok (PStr s)) as Hf.
  { unfold AutoGeneratedRecord_id, raw_field. by rewrite Hdraw, Hid. }
  set (w1 := MkWorld (<["id" := PStr s]> d) ["id"]).
  assert (getattr AutoGeneratedRecord "id" (MkWorld d []) = (w1, Ok (PStr s))) as Hg0.
  { unfold getattr. rewrite class_lookup_AutoGeneratedRecord, String.eqb_refl.
    rewrite cached_property_get_spec. cbn [w_dict w_calls]. by rewrite Hdid, Hf. }
  assert (getattr AutoGeneratedRecord "id" w1 = (w1, Ok (PStr s))) as Hg1.
  { apply (getattr_cached_hit _ "id" "id" AutoGeneratedRecord_id).
    - by rewrite class_lookup_AutoGeneratedRecord, String.eqb_refl.
    - apply lookup_insert_eq. }
  unfold generate_record_property_cache.
  change (class_dict AutoGeneratedRecord)
    with [("id", CachedProperty "id" AutoGeneratedRecord_id);
          ("remove_raw_object", Value PTrue)].
  unfold bind at 1. cbn [for_each force_cached_property].
  unfold bind at 1. unfold bind at 1. rewrite Hg0.
  unfold ret at 1. unfold bind at 1. unfold ret at 1. unfold ret at 1.
  unfold bind at 1.
  rewrite (validate_record_str AutoGeneratedRecord w1 w1 w1 s s Hg1 Hg1), Hm.
  unfold bind, lift_result. unfold class_remove_raw_object.
  rewrite class_lookup_AutoGeneratedRecord. cbn [String.eqb Ascii.eqb Bool.eqb].
  cbn [truthy Z.eqb negb].
  unfold del_raw_object, bind, get_store, modify. cbn [w_dict w_calls w1].
  rewrite lookup_insert_ne by done. rewrite Hdraw.
  f_equal. f_equal. change (w_dict w1) with (<["id" := PStr s]> d).
  apply map_eq. intros k. rewrite lookup_fmap.
  destruct (decide (k = "raw_object")) as [->|Hk].
  { by rewrite lookup_delete_eq, Hnone. }
  rewrite lookup_delete_ne by done.
  destruct (decide (k = "id")) as [->|Hk'].
  { by rewrite lookup_insert_eq, Hid. }
  rewrite lookup_insert_ne by done. subst d.
  rewrite AutoGeneratedRecord_dict_lookup. rewrite decide_False by done.
  destruct (raw !! k); [done|]. by rewrite decide_False.
Qed.

(** ** Equality *)

(** X12. On records whose ids can be read, [==] is an equivalence relation:
    a record equals itself exactly when its id can be read, and equality is
    transitive. *)
Theorem Record_eq_op_equivalence (r s t : Obj) :
  (eq_op r r = Ok true ↔ ∃ v, attr_value r "id" = Ok v)
  ∧ (eq_op r s = Ok true → eq_op s t = Ok true → eq_op r t = Ok true).
Proof.
  split.
  - rewrite eq_op_true. split; [intros [_ (v & Hv & _)]; eauto|].
    intros [v Hv]. eauto.
  - rewrite !eq_op_true. intros [Hc1 (v & Hr & Hs)] [Hc2 (v' & Hs' & Ht)].
    split; [congruence|]. exists v. split; [done|]. congruence.
Qed.

(** * Further properties of [HashBlockGenerator] *)

Section MoreBlockProperties.
Context {BL : Type} `{!BlockBlackList BL}.
Implicit Types (st : BlockStore BL) (r : Obj) (v : PyVal) (t : Triple).

(** X13. [block] never removes an entry from the output block it is given:
    whatever the outcome of the call, every triple the block held before is
    still there. *)
Theorem block_keeps_output_block (D : Dataset) f p (b0 : option Block)
    (bl0 : option BL) st res t :
  block D f p b0 bl0 = (st, res) →
  Block_mem (default Block_new b0) t →
  Block_mem (st_block st) t.
Proof.
  unfold block. destruct (_block_args_check f p b0) as [e|b] eqn:Hargs.
  { by intros [= <- _]. }
  assert (b = default Block_new b0) as ->.
  { unfold _block_args_check in Hargs. by destruct f, p; simplify_eq. }
  destruct (for_each _ _ _) as [st' [e|[]]] eqn:Hloop;
    intros [= <- _] Ht; by eapply block_loop_mono.
Qed.

(** The loop without a black-list, from any block. *)
Lemma block_args_check_ok f p (b0 : option Block) (b : Block) :
  _block_args_check f p b0 = Ok b → b = default Block_new b0.
Proof. unfold _block_args_check. by destruct f, p; intros; simplify_eq. Qed.

(** X14. Blocking accumulates: without a black-list, when every key is a
    string and every id can be read, [block] returns the output block it was
    given (or a fresh one) extended with exactly one entry (key, dataset id,
    record id) per record, whether the key comes from a function or from a
    named attribute. *)
Theorem block_accumulates (D : Dataset) f p (b0 : option Block) (b : Block) :
  _block_args_check f p b0 = Ok b →
  (∀ r, r ∈ ds_records D → ∃ k, extract_key f p r = Ok (PStr k)) →
  (∀ r, r ∈ ds_records D → ∃ i, attr_value r "id" = Ok i) →
  ∃ B : Block,
    block D f p b0 (None : option BL) = (MkStore B None, Ok B)
    ∧ ∀ t, Block_mem B t ↔
           Block_mem (default Block_new b0) t
           ∨ ∃ r, r ∈ ds_records D ∧ extract_key f p r = Ok (PStr t.1.1)
                  ∧ t.1.2 = ds_id D ∧ attr_value r "id" = Ok t.2.
Proof.
  intros Hargs Hkeys Hids.
  destruct (block_loop_no_black_list (ds_id D) f p (ds_records D) b)
    as (B & Hrun & Hmem); [done..|].
  exists B. split.
  - unfold block. by rewrite Hargs, Hrun.
  - intros t. rewrite Hmem. by rewrite (block_args_check_ok f p b0 b Hargs).
Qed.

(** X15. Blocking a dataset in two passes, the second pass continuing with
    the block and the black-list the first one left, is the same as one pass
    over the whole dataset; when the first pass raises, so does the whole. *)
Theorem block_two_passes ds (xs ys : list Obj) f p (b0 : option Block)
    (bl0 : option BL) :
  block (MkDataset ds (xs ++ ys)) f p b0 bl0 =
  match block (MkDataset ds xs) f p b0 bl0 with
  | (st, Ok _) => block (MkDataset ds ys) f p (Some (st_block st)) (st_black_list st)
  | (st, Raise e) => (st, Raise e)
  end.
Proof.
  unfold block. simpl.
  destruct (_block_args_check f p b0) as [e|b] eqn:Hargs; [done|].
  rewrite for_each_app.
  destruct (for_each xs _ _) as [[b1 bl1] [e|[]]]; [done|]. simpl.
  assert (_block_args_check f p (Some b1) = Ok b1) as ->.
  { unfold _block_args_check in *. by destruct f, p. }
  done.
Qed.

(** X16. Exceptions of the key extraction and of the id accessor propagate
    unchanged and stop the pass at the record that raised: the block and the
    black-list are as the records before it left them, and the record is not
    added. *)
Theorem block_exceptions_propagate ds pre r post f p (b0 : option Block)
    (bl0 : option BL) st1 b1 e :
  block (MkDataset ds pre) f p b0 bl0 = (st1, Ok b1) →
  (extract_key f p r = Raise e
   ∨ ∃ k, extract_key f p r = Ok (PStr k)
          ∧ excluded (st_black_list st1) (PStr k) = false
          ∧ attr_value r "id" = Raise e) →
  block (MkDataset ds (pre ++ r :: post)) f p b0 bl0 = (st1, Raise e).
Proof.
  unfold block. simpl. intros Hpre Hr.
  destruct (_block_args_check f p b0) as [e'|b]; [done|].
  rewrite for_each_app.
  destruct (for_each pre _ _) as [st [e'|[]]]; [done|].
  injection Hpre as -> _.
  rewrite for_each_cons.
  assert (block_record ds f p r st1 = (st1, Raise e)) as ->; [|done].
  unfold block_record, bind, lift_result, get_store.
  destruct Hr as [Hk|(k & Hk & Hex & Hi)]; rewrite Hk; [done|].
  simpl. by rewrite Hex, Hi.
Qed.

Lemma block_record_never_excluding ds f p r (b : Block) (bl : BL) :
  (∀ (bl' : BL) v, bl_has bl' v = false) →
  ∃ (b1 : Block) (bl1 : BL) res,
    block_record ds f p r (MkStore b (None : option BL)) = (MkStore b1 None, res)
    ∧ block_record ds f p r (MkStore b (Some bl)) = (MkStore b1 (Some bl1), res).
Proof.
  intros Hnever.
  unfold block_record, bind, lift_result, get_store, modify, ret, raise.
  destruct (extract_key f p r) as [e|v]; simpl; [by exists b, bl, (Raise e)|].
  rewrite Hnever.
  destruct v as [[k|z|]|d]; simpl; try by eexists b, bl, _.
  destruct (attr_value r "id") as [e|i]; simpl; [by exists b, bl, (Raise e)|].
  by eexists _, _, _.
Qed.

Lemma block_loop_never_excluding ds f p (rs : list Obj) (b : Block) (bl : BL) :
  (∀ (bl' : BL) v, bl_has bl' v = false) →
  ∃ (b1 : Block) (bl1 : BL) res,
    for_each rs (block_record ds f p) (MkStore b (None : option BL))
      = (MkStore b1 None, res)
    ∧ for_each rs (block_record ds f p) (MkStore b (Some bl))
      = (MkStore b1 (Some bl1), res).
Proof.
  intros Hnever. revert b bl. induction rs as [|r rs IH]; intros b bl.
  - by exists b, bl, (Ok tt).
  - rewrite !for_each_cons.
    destruct (block_record_never_excluding ds f p r b bl Hnever)
      as (b1 & bl1 & res & -> & ->).
    destruct res as [e|[]]; [by exists b1, bl1, (Raise e)|]. apply IH.
Qed.

(** X17. A black-list that never excludes anything does not change what
    [block] computes: the returned block (or the raised exception) and the
    final state of the output block are those of the call without a
    black-list. *)
Theorem block_with_black_list_excluding_nothing (D : Dataset) f p
    (b0 : option Block) (bl0 : BL) :
  (∀ (bl : BL) v, bl_has bl v = false) →
  (block D f p b0 (Some bl0)).2 = (block D f p b0 (None : option BL)).2
  ∧ st_block (block D f p b0 (Some bl0)).1
    = st_block (block D f p b0 (None : option BL)).1.
Proof.
  intros Hnever. unfold block.
  destruct (_block_args_check f p b0) as [e|b]; [done|].
  destruct (block_loop_never_excluding (ds_id D) f p (ds_records D) b bl0 Hnever)
    as (b1 & bl1 & res & -> & ->).
  by destruct res as [e|[]].
Qed.
End MoreBlockProperties.

(** X18. [generate] adds the triples of both blocks to the output block it
    is given and removes nothing from it: the result holds a triple exactly
    when the output block, [block1] or [block2] held it. *)
Theorem generate_into_output_block (block1 block2 out : Block) (t : Triple) :
  Block_mem (generate block1 block2 (Some out)) t
  ↔ Block_mem out t ∨ Block_mem block1 t ∨ Block_mem block2 t.
Proof.
  unfold generate, _generate_args_check. simpl.
  rewrite !Block_mem_foldl_add, !elem_of_Block_iter. tauto.
Qed.

(** X19. On memberships, merging with [generate] is commutative, associative
    and idempotent, and merging with an empty block changes nothing. *)
Theorem generate_merge_laws (a b c : Block) (t : Triple) :
  (Block_mem (generate a b None) t ↔ Block_mem (generate b a None) t)
  ∧ (Block_mem (generate (generate a b None) c None) t
     ↔ Block_mem (generate a (generate b c None) None) t)
  ∧ (Block_mem (generate a a None) t ↔ Block_mem a t)
  ∧ (Block_mem (generate a Block_new None) t ↔ Block_mem a t).
Proof.
  assert (∀ x y, Block_mem (generate x y None) t ↔ Block_mem x t ∨ Block_mem y t)
    as Hu.
  { intros x y. unfold generate, _generate_args_check. simpl.
    rewrite !Block_mem_foldl_add, !elem_of_Block_iter.
    pose proof (Block_mem_new t). tauto. }
  pose proof (Block_mem_new t).
  rewrite !Hu. tauto.
Qed.

(** ** The further properties at concrete inputs *)

Lemma generate_record_property_cache_keeps_attributes_witness :
  let w := MkWorld (obj_dict (person "a1" (SStr "john"))) [] in
  w_dict (generate_record_property_cache AutoGeneratedRecord w).1 !! "name"
  = Some (PStr "john").
Proof.
  intros w.
  apply (generate_record_property_cache_keeps_attributes AutoGeneratedRecord w
           (generate_record_property_cache AutoGeneratedRecord w).1
           (generate_record_property_cache AutoGeneratedRecord w).2
           "name" (PStr "john")).
  - by destruct (generate_record_property_cache AutoGeneratedRecord w).
  - discriminate.
  - reflexivity.
Defined.

Lemma generate_record_property_cache_failure_keeps_raw_object_witness :
  let raw := {[ "id" := SStr "a*" ]} : gmap string Scalar in
  let w := MkWorld (obj_dict (AutoGeneratedRecord_init raw)) [] in
  w_dict (generate_record_property_cache AutoGeneratedRecord w).1 !! "raw_object"
  = Some (PDict raw).
Proof.
  intros raw w.
  apply (generate_record_property_cache_failure_keeps_raw_object AutoGeneratedRecord w
           (generate_record_property_cache AutoGeneratedRecord w).1
           (MkExn ValueError "Id is not valid") (PDict raw)).
  - vm_compute. reflexivity.
  - reflexivity.
Defined.

Lemma generate_record_property_cache_twice_witness :
  let w1 := MkWorld {[ "id" := PStr "a1"; "name" := PStr "john" ]} ["id"] in
  ∃ w2 e, generate_record_property_cache AutoGeneratedRecord w1 = (w2, Raise e)
          ∧ w_dict w2 !! "raw_object" = None.
Proof.
  intros w1.
  apply (generate_record_property_cache_twice AutoGeneratedRecord
           (MkWorld (obj_dict (person "a1" (SStr "john"))) []) w1 PTrue).
  - vm_compute. reflexivity.
  - reflexivity.
  - reflexivity.
  - simpl.
    repeat match goal with
           | |- _ ∧ _ => split
           | |- True => exact I
           | |- _ ≠ _ => discriminate
           | |- Forall _ Record_dict => unfold Record_dict
           | |- Forall _ [] => apply Forall_nil_2
           | |- Forall _ (_ :: _) => apply Forall_cons_2; [simpl|]
           end.
Defined.

Lemma Record_id_not_implemented_witness :
  let e := MkExn NotImplementedError "" in
  (∀ d calls,
     getattr PlainRecord "id" (MkWorld d calls) = (MkWorld d (calls ++ ["id"]), Raise e)
     ∧ validate_record PlainRecord (MkWorld d calls)
       = (MkWorld d (calls ++ ["id"]), Raise e))
  ∧ (∀ r s, obj_class r = PlainRecord → obj_class s = PlainRecord →
       eq_op r s = Raise e).
Proof. apply (Record_id_not_implemented PlainRecord). reflexivity. Defined.

Lemma cached_property_failure_not_cached_witness :
  let e := MkExn AttributeError "raw_object" in
  let w1 := MkWorld ∅ ["id"] in
  getattr AutoGeneratedRecord "id" (MkWorld ∅ []) = (w1, Raise e)
  ∧ getattr AutoGeneratedRecord "id" w1 = (MkWorld ∅ ["id"; "id"], Raise e).
Proof.
  intros e w1.
  apply (cached_property_failure_not_cached AutoGeneratedRecord "id" "id"
           AutoGeneratedRecord_id ∅ [] e); reflexivity.
Defined.

Lemma cached_property_shared_slot_witness :
  let raw := PDict {[ "id" := SStr "a1"; "name" := SStr "john" ]} in
  let w := MkWorld {[ "raw_object" := raw ]} [] in
  let w1 := MkWorld {[ "raw_object" := raw; "<lambda>" := PStr "a1" ]} ["<lambda>"] in
  getattr LambdaRecord "name" w1 = (w1, Ok (PStr "a1")).
Proof.
  intros raw w w1.
  apply (cached_property_shared_slot LambdaRecord "id" "name" "<lambda>"
           (raw_field "id") (raw_field "name") w w1 (PStr "a1")).
  - reflexivity.
  - reflexivity.
  - vm_compute. reflexivity.
Defined.

Lemma AutoGeneratedRecord_finalised_witness :
  let raw := {[ "id" := SStr "a1"; "name" := SStr "john" ]} : gmap string Scalar in
  generate_record_property_cache AutoGeneratedRecord
    (MkWorld (obj_dict (AutoGeneratedRecord_init raw)) [])
  = (MkWorld (PScalar <$> raw) ["id"], Ok tt).
Proof.
  intros raw. apply (AutoGeneratedRecord_finalised raw "a1"); reflexivity.
Defined.

Lemma block_keeps_output_block_witness :
  Block_mem
    (st_block (block dataset_B (Some name_key) None (Some block_A)
                 (None : option CountingBlackList)).1)
    ("mary", "A", PStr "a2").
Proof.
  apply (block_keeps_output_block dataset_B (Some name_key) None (Some block_A) None
           _ (block dataset_B (Some name_key) None (Some block_A)
                (None : option CountingBlackList)).2).
  - by destruct (block dataset_B _ _ _ _).
  - apply (bool_decide_unpack (Block_mem _ _)). vm_compute. exact I.
Defined.

Lemma block_accumulates_witness :
  ∃ B : Block,
    block dataset_B (Some name_key) None (Some block_A)
      (None : option CountingBlackList) = (MkStore B None, Ok B)
    ∧ ∀ t, Block_mem B t ↔
           Block_mem (default Block_new (Some block_A)) t
           ∨ ∃ r, r ∈ ds_records dataset_B
                  ∧ extract_key (Some name_key) None r = Ok (PStr t.1.1)
                  ∧ t.1.2 = ds_id dataset_B ∧ attr_value r "id" = Ok t.2.
Proof.
  apply (block_accumulates dataset_B (Some name_key) None (Some block_A) block_A).
  - reflexivity.
  - intros r Hr. simpl in Hr.
    apply elem_of_cons in Hr as [->|Hr]; [by exists "john"; vm_compute|].
    by apply elem_of_nil in Hr.
  - intros r Hr. simpl in Hr.
    apply elem_of_cons in Hr as [->|Hr]; [by exists (PStr "b1"); vm_compute|].
    by apply elem_of_nil in Hr.
Defined.

Lemma block_exceptions_propagate_witness :
  let st1 := MkStore (Block_add ∅ "john" "A" (PStr "a1"))
                     (None : option CountingBlackList) in
  block dataset_no_name (Some name_key) None None None
  = (st1, Raise (MkExn AttributeError "name")).
Proof.
  intros st1.
  apply (block_exceptions_propagate "A" [person "a1" (SStr "john")]
           (AutoGeneratedRecord_init {[ "id" := SStr "a2" ]})
           [person "a3" (SStr "mary")]
           (Some name_key) None None None st1 (st_block st1)).
  - reflexivity.
  - left. reflexivity.
Defined.

Lemma block_with_black_list_excluding_nothing_witness :
  (block dataset_A (Some name_key) None None (Some (MkPBL 0))).2
  = (block dataset_A (Some name_key) None None (None : option PermissiveBlackList)).2
  ∧ st_block (block dataset_A (Some name_key) None None (Some (MkPBL 0))).1
    = st_block (block dataset_A (Some name_key) None None
                  (None : option PermissiveBlackList)).1.
Proof.
  apply (block_with_black_list_excluding_nothing dataset_A (Some name_key) None None
           (MkPBL 0)).
  reflexivity.
Defined.

(** X1. The outcome of [validate_record] on a record whose id reads as the
    value [v]: [TypeError], naming the class, when [v] is not a string;
    [ValueError] when it is a string that is empty, contains ['*'], or is
    longer than 255 characters, except for a string of 256 characters that
    ends in a newline; no exception otherwise.  The id is read once in the
    first case and twice in the others. *)
Theorem validate_record_outcome c w w1 w2 v :
  getattr c "id" w = (w1, Ok v) →
  getattr c "id" w1 = (w2, Ok v) →
  validate_record c w =
    match v with
    | PStr s =>
        (w2,
         if has_star s
            || Nat.eqb (String.length s) 0
            || (Nat.ltb 255 (String.length s)
                && negb (Nat.eqb (String.length s) 256 && ends_with_newline s))
         then Raise (MkExn ValueError "Id is not valid")
         else Ok tt)
    | _ =>
        (w1, Raise (MkExn TypeError
                      ("Id in " ++ class_name c
                       ++ " should be an utf-8 encoded string.")))
    end.
Proof.
  intros Hg1 Hg2.
  destruct v as [[s|z|]|d];
    try by apply (validate_record_not_str c w w1 _ Hg1).
  rewrite (validate_record_str c w w1 w2 s s Hg1 Hg2). f_equal.
  pose proof (re_record_id_match_spec s) as Hspec.
  destruct (re_record_id_match s) eqn:Hm.
  - destruct Hspec as [Hspec _]. destruct (Hspec eq_refl) as [Hs Hlen].
    rewrite Hs. simpl.
    destruct Hlen as [Hlen|[Hlen Hnl]].
    + replace (Nat.eqb (String.length s) 0) with false
        by (symmetry; apply Nat.eqb_neq; lia).
      replace (Nat.ltb 255 (String.length s)) with false
        by (symmetry; apply Nat.ltb_ge; lia).
      done.
    + rewrite Hlen, Hnl. done.
  - destruct (has_star s) eqn:Hs; [done|]. simpl.
    destruct (Nat.eqb (String.length s) 0) eqn:H0; [done|]. simpl.
    apply Nat.eqb_neq in H0.
    destruct (Nat.ltb 255 (String.length s)) eqn:H255.
    + simpl. destruct (Nat.eqb (String.length s) 256) eqn:H256; [|done].
      destruct (ends_with_newline s) eqn:Hnl; [|done].
      apply Nat.eqb_eq in H256.
      destruct Hspec as [_ Hspec].
      discriminate (Hspec (conj eq_refl (or_intror (conj H256 eq_refl)))).
    + apply Nat.ltb_ge in H255.
      destruct Hspec as [_ Hspec].
      assert (1 ≤ String.length s ≤ 255)%nat as Hlen by lia.
      discriminate (Hspec (conj eq_refl (or_introl Hlen))).
Qed.

Lemma validate_record_outcome_witness :
  let o := Record_init RawIdRecord (PStr "a*") in
  validate_record RawIdRecord (MkWorld (obj_dict o) [])
  = (MkWorld (obj_dict o) ["id"; "id"], Raise (MkExn ValueError "Id is not valid")).
Proof.
  intros o.
  apply (validate_record_outcome RawIdRecord (MkWorld (obj_dict o) [])
           (MkWorld (obj_dict o) ["id"]) (MkWorld (obj_dict o) ["id"; "id"])
           (PStr "a*")); reflexivity.
Defined.
